(** * ghproxy: request classification and link rewriting (proxy/match.go)

    A shallow embedding of [Matcher], [EditorMatcher], [modifyURL] and
    [processLinks] of package [proxy], with the properties its design
    document states about them.

    Go strings are byte strings; they are modelled by [string], whose
    characters are bytes.  Indexing a slice out of range panics in Go, so
    code that indexes runs in the [exec] monad, whose second constructor is
    the run-time panic. *)

From Stdlib Require Import String Ascii List ZArith Lia Bool Arith.
Import ListNotations.

Open Scope string_scope.

(* ------------------------------------------------------------------ *)
(** ** Package [strings] *)

Module strings.

(** [strings.HasPrefix(s, prefix)] *)
Fixpoint HasPrefix (s pre : string) {struct pre} : bool :=
  match pre with
  | EmptyString => true
  | String p pre' =>
      match s with
      | EmptyString => false
      | String c s' => Ascii.eqb c p && HasPrefix s' pre'
      end
  end.

(** [s[n:]] for [n <= len(s)] *)
Fixpoint drop (n : nat) (s : string) : string :=
  match n with
  | O => s
  | S n' => match s with
            | EmptyString => EmptyString
            | String _ s' => drop n' s'
            end
  end.

(** [strings.TrimPrefix(s, prefix)] *)
Definition TrimPrefix (s pre : string) : string :=
  if HasPrefix s pre then drop (String.length pre) s else s.

(** [strings.HasSuffix(s, suffix)] *)
Definition HasSuffix (s suf : string) : bool :=
  (String.length suf <=? String.length s)%nat
  && String.eqb (drop (String.length s - String.length suf) s) suf.

(** [strings.Split(s, sep)] for a separator of one byte: the substrings
    between the separators, one more than there are separators. *)
Fixpoint Split (s : string) (sep : ascii) : list string :=
  match s with
  | EmptyString => [EmptyString]
  | String c s' =>
      if Ascii.eqb c sep then EmptyString :: Split s' sep
      else match Split s' sep with
           | part :: parts => String c part :: parts
           | [] => [String c EmptyString]
           end
  end.

(** no byte of [s] is [sep] *)
Fixpoint free_of (sep : ascii) (s : string) : bool :=
  match s with
  | EmptyString => true
  | String c s' => negb (Ascii.eqb c sep) && free_of sep s'
  end.

(** [strings.Join(elems, sep)] *)
Fixpoint Join (elems : list string) (sep : string) : string :=
  match elems with
  | [] => EmptyString
  | e :: rest =>
      match rest with
      | [] => e
      | _ :: _ => e ++ sep ++ Join rest sep
      end
  end.

(** [strings.Contains(s, substr)] *)
Fixpoint Contains (s substr : string) : bool :=
  HasPrefix s substr
  || match s with
     | EmptyString => false
     | String _ s' => Contains s' substr
     end.

End strings.

(* ------------------------------------------------------------------ *)
(** ** Run-time panics *)

Inductive exec (A : Type) : Type :=
| Done (a : A)
| Panic (reason : string).
Arguments Done {A} a.
Arguments Panic {A} reason.

Definition bind {A B : Type} (m : exec A) (k : A -> exec B) : exec B :=
  match m with
  | Done a => k a
  | Panic r => Panic r
  end.

Notation "x <- m ;; k" := (bind m (fun x => k))
  (at level 61, m at next level, right associativity).

(** [parts[i]]: a slice index expression, which panics out of range *)
Definition index (parts : list string) (i : nat) : exec string :=
  match nth_error parts i with
  | Some p => Done p
  | None => Panic "index out of range"
  end.

(* ------------------------------------------------------------------ *)
(** ** Configuration and error values used by the matchers *)

(** The fields of [config.Config] that this file reads. *)
Record AuthConfig : Type := {
  Enabled : bool;
  Method : string;
  ForceAllowApi : bool
}.

Record ShellConfig : Type := {
  RewriteAPI : bool
}.

Record Config : Type := {
  Auth : AuthConfig;
  Shell : ShellConfig
}.

(** Modelled from the spec: the type [GHProxyErrors] and its constructor
    [NewErrorWithStatusLookup] are declared outside proxy/match.go; the
    design document gives the error as [{httpStatus, message}], the status
    being the one the call site passes. *)
Record GHProxyErrors : Type := {
  httpStatus : Z;
  message : string
}.

Definition NewErrorWithStatusLookup (statusCode : Z) (errMsg : string)
  : GHProxyErrors :=
  {| httpStatus := statusCode; message := errMsg |}.

(** The match kinds of the design document and the strings [Matcher]
    returns for them; [KNone] is the zero value of the string. *)
Inductive MatchKind : Type :=
| Releases | Blob | Raw | Clone | Gist | Api | KNone.

Definition kindName (k : MatchKind) : string :=
  match k with
  | Releases => "releases"
  | Blob => "blob"
  | Raw => "raw"
  | Clone => "clone"
  | Gist => "gist"
  | Api => "api"
  | KNone => ""
  end.

(* ------------------------------------------------------------------ *)
(** ** [Matcher] *)

(** The four results of [Matcher]: user, repo, matcher and the error
    ([None] is Go's [nil]). *)
Record MatcherResult : Type := {
  user : string;
  repo : string;
  matcher : string;
  failure : option GHProxyErrors
}.

Definition ok (u r m : string) : MatcherResult :=
  {| user := u; repo := r; matcher := m; failure := None |}.

Definition fail (statusCode : Z) (errMsg : string) : MatcherResult :=
  {| user := ""; repo := ""; matcher := "";
     failure := Some (NewErrorWithStatusLookup statusCode errMsg) |}.

Definition slash : ascii := "/"%char.

(** The [switch parts[2]] of the github.com branch: the matcher, or [None]
    for the default case. *)
Definition thirdSegment (seg : string) : option string :=
  if String.eqb seg "releases" || String.eqb seg "archive" then Some "releases"
  else if String.eqb seg "blob" then Some "blob"
  else if String.eqb seg "raw" then Some "raw"
  else if String.eqb seg "info" || String.eqb seg "git-upload-pack"
       then Some "clone"
  else None.

Definition Matcher (rawPath : string) (cfg : Config) : exec MatcherResult :=
  if strings.HasPrefix rawPath "https://github.com" then
    let remainingPath := strings.TrimPrefix rawPath "https://github.com" in
    let remainingPath :=
      if strings.HasPrefix remainingPath "/"
      then strings.TrimPrefix remainingPath "/" else remainingPath in
    let parts := strings.Split remainingPath slash in
    if (List.length parts <=? 2)%nat then
      Done (fail 400
        "Not enough parts in path after matching 'https://github.com*'")
    else
      user <- index parts 0 ;;
      repo <- index parts 1 ;;
      if (3 <=? List.length parts)%nat then
        seg <- index parts 2 ;;
        match thirdSegment seg with
        | Some matcher => Done (ok user repo matcher)
        | None =>
            Done (fail 400
              "Url Matched 'https://github.com*', but didn't match the next matcher")
        end
      else Done (ok user repo "")
  else if strings.HasPrefix rawPath "https://raw" then
    let remainingPath := strings.TrimPrefix rawPath "https://" in
    let parts := strings.Split remainingPath slash in
    if (List.length parts <=? 3)%nat then
      Done (fail 400
        "URL after matched 'https://raw*' should have at least 4 parts (user/repo/branch/file).")
    else
      user <- index parts 1 ;;
      repo <- index parts 2 ;;
      Done (ok user repo "raw")
  else if strings.HasPrefix rawPath "https://gist" then
    let remainingPath := strings.TrimPrefix rawPath "https://" in
    let parts := strings.Split remainingPath slash in
    if (List.length parts <=? 3)%nat then
      Done (fail 400
        "URL after matched 'https://gist*' should have at least 4 parts (user/gist_id).")
    else
      user <- index parts 1 ;;
      Done (ok user "" "gist")
  else if strings.HasPrefix rawPath "https://api.github.com/" then
    let matcher := "api" in
    let remainingPath := strings.TrimPrefix rawPath "https://api.github.com/" in
    let parts := strings.Split remainingPath slash in
    (* (user, repo) start as the empty strings of the var block *)
    p0 <- index parts 0 ;;
    ur <- (if String.eqb p0 "repos" then
             u <- index parts 1 ;;
             r <- index parts 2 ;;
             Done (u, r)
           else Done ("", "")) ;;
    p0' <- index parts 0 ;;
    ur <- (if String.eqb p0' "users" then
             u <- index parts 1 ;;
             Done (u, snd ur)
           else Done ur) ;;
    if negb (ForceAllowApi (Auth cfg))
       && (negb (String.eqb (Method (Auth cfg)) "header")
           || negb (Enabled (Auth cfg)))
    then
      Done (fail 403
        "AuthHeader Unavailable, Need to open header auth to enable api proxy")
    else Done (ok (fst ur) (snd ur) matcher)
  else
    Done (fail 404 "Didn't match any matcher").

(* ------------------------------------------------------------------ *)
(** ** Error values *)

(** Go [error] values: the sentinels of packages [io], [compress/gzip]
    and [compress/flate] that can reach this file, any other error of the
    environment, and [fmt.Errorf(format, e)] with a single [%v] verb. *)
Inductive error : Type :=
| EOF
| ErrUnexpectedEOF
| ErrClosedPipe
| ErrShortWrite
| ErrHeader
| ErrWriterClosed
| Failure (msg : string)
| Errorf (format : string) (e : error).

(* ------------------------------------------------------------------ *)
(** ** [EditorMatcher] and [modifyURL] *)

Definition EditorMatcher (rawPath : string) (cfg : Config)
  : bool * option error :=
  if strings.HasPrefix rawPath "https://github.com" then (true, None)
  else if strings.HasPrefix rawPath "https://raw.githubusercontent.com"
       then (true, None)
  else if strings.HasPrefix rawPath "https://raw.github.com" then (true, None)
  else if strings.HasPrefix rawPath "https://gist.githubusercontent.com"
       then (true, None)
  else if strings.HasPrefix rawPath "https://gist.github.com" then (true, None)
  else if RewriteAPI (Shell cfg) then
    if strings.HasPrefix rawPath "https://api.github.com" then (true, None)
    else (false, None)
  else (false, None).

(** [MatcherShell] *)
Definition MatcherShell (rawPath : string) : bool :=
  strings.HasSuffix rawPath ".sh".

Definition modifyURL (url host : string) (cfg : Config) : string :=
  match EditorMatcher url cfg with
  | (_, Some _) => url
  | (matched, None) =>
      if matched then
        let u := url in
        let u := strings.TrimPrefix u "https://" in
        let u := strings.TrimPrefix u "http://" in
        "https://" ++ host ++ "/" ++ u
      else url
  end.

(* ------------------------------------------------------------------ *)
(** ** Package [regexp]: [urlPattern] and [ReplaceAllStringFunc] *)

Module regexp.

(** [s[:n]] *)
Fixpoint take (n : nat) (s : string) : string :=
  match n, s with
  | S n', String c s' => String c (take n' s')
  | _, _ => EmptyString
  end.

(** The class [\s] of RE2: tab, newline, form feed, carriage return and
    space. *)
Definition isSpace (c : ascii) : bool :=
  Ascii.eqb c "009" || Ascii.eqb c "010" || Ascii.eqb c "012"
  || Ascii.eqb c "013" || Ascii.eqb c " ".

(** The class of the pattern: no white space, no single quote and no
    double quote (byte 34); every byte of a multi-byte rune is in it. *)
Definition urlByte (c : ascii) : bool :=
  negb (isSpace c || Ascii.eqb c "'" || Ascii.eqb c "034").

(** length of the longest run of [urlByte] at the start of [s] *)
Fixpoint run (s : string) : nat :=
  match s with
  | EmptyString => O
  | String c s' => if urlByte c then S (run s') else O
  end.

Definition matchScheme (scheme s : string) : option nat :=
  if strings.HasPrefix s scheme then
    match run (strings.drop (String.length scheme) s) with
    | O => None
    | S n => Some (String.length scheme + S n)
    end
  else None.

(** [urlPattern]: http, an optional s, a colon and two slashes, then
    one or more bytes of the class, as many as there are.  The pattern
    is anchored at the start of [s]; the result is the length of its
    match there, or [None]. *)
Definition urlPattern (s : string) : option nat :=
  match matchScheme "https://" s with
  | Some n => Some n
  | None => matchScheme "http://" s
  end.

(** [re.ReplaceAllStringFunc(src, repl)] for a pattern whose matches are
    not empty: the leftmost match is replaced and the scan resumes behind
    it.  [inside] counts the bytes of the current match still to skip. *)
Fixpoint replaceFrom (re : string -> option nat) (inside : nat)
         (src : string) (repl : string -> string) : string :=
  match src with
  | EmptyString => EmptyString
  | String c rest =>
      match inside with
      | S k => replaceFrom re k rest repl
      | O =>
          match re src with
          | Some (S k) => repl (take (S k) src) ++ replaceFrom re k rest repl
          | _ => String c (replaceFrom re O rest repl)
          end
      end
  end.

Definition ReplaceAllStringFunc (re : string -> option nat)
           (src : string) (repl : string -> string) : string :=
  replaceFrom re O src repl.

End regexp.

(* ------------------------------------------------------------------ *)
(** ** Byte streams, the pipe and the buffered writer *)

(** A readable stream: the bytes it delivers and the error its [Read]
    returns once they are consumed, [EOF] at a regular end. *)
Record Stream : Type := {
  bytes : string;
  ending : error
}.

(** An [io.ReadCloser]: a stream and the result of its [Close]. *)
Record ReadCloser : Type := {
  stream : Stream;
  closeResult : option error
}.

(** The owner of the read end of the pipe: it reads until the stream
    ends, or it reads [n] bytes and then closes its end with
    [CloseWithError(e)]. *)
Inductive Consumer : Type :=
| Drains
| ClosesAfter (n : nat) (e : option error).

(** [io.Pipe]: what the read end has received, its owner, and the error
    the write end was closed with ([None] while it is open). *)
Record Pipe : Type := {
  received : string;
  reader : Consumer;
  werr : option error
}.

Definition newPipe (c : Consumer) : Pipe :=
  {| received := ""; reader := c; werr := None |}.

(** [PipeWriter.Write]: the write returns when the reader has taken
    every byte, or with the error of a reader that closed its end. *)
Definition pipeWrite (p : Pipe) (b : string) : Pipe * (nat * option error) :=
  match reader p with
  | Drains =>
      ({| received := received p ++ b; reader := Drains; werr := werr p |},
       (String.length b, None))
  | ClosesAfter n e =>
      let rerr := match e with Some e' => e' | None => ErrClosedPipe end in
      if (n =? 0)%nat then (p, (O, Some rerr))
      else if (String.length b <=? n)%nat then
        ({| received := received p ++ b;
            reader := ClosesAfter (n - String.length b) e;
            werr := werr p |},
         (String.length b, None))
      else
        ({| received := received p ++ regexp.take n b;
            reader := ClosesAfter O e;
            werr := werr p |},
         (n, Some rerr))
  end.

(** [PipeWriter.CloseWithError(err)]; [Close()] is [CloseWithError(nil)].
    The first close wins, a nil error stands for [EOF], and the call
    itself always returns nil. *)
Definition closeWrite (p : Pipe) (err : option error) : Pipe :=
  match werr p with
  | Some _ => p
  | None =>
      {| received := received p; reader := reader p;
         werr := Some (match err with Some e => e | None => EOF end) |}
  end.

(** What [io.ReadAll]-like draining of the read end yields: the bytes and
    the error that ends them ([None]: the write end was never closed). *)
Definition drain (p : Pipe) : string * option error :=
  (received p, werr p).

(** An [io.Writer] below the buffered writer: its state, its [Write] and
    the pipe that it writes to. *)
Record WriterImpl : Type := {
  wstate : Type;
  Write : wstate -> string -> wstate * (nat * option error);
  under : wstate -> Pipe
}.

Definition pipeWriter : WriterImpl :=
  {| wstate := Pipe; Write := pipeWrite; under := fun p => p |}.

Module bufio.

Definition size : nat := 4096.

Section Writer.

Variable w : WriterImpl.

(** [bufio.Writer]: [buf] holds the [b.n] buffered bytes, [err] the
    error that makes every later operation fail. *)
Record Writer : Type := {
  wr : wstate w;
  buf : string;
  err : option error
}.

Definition NewWriterSize (under : wstate w) : Writer :=
  {| wr := under; buf := ""; err := None |}.

Definition Available (b : Writer) : nat := size - String.length (buf b).

Definition Flush (b : Writer) : Writer * option error :=
  match err b with
  | Some e => (b, Some e)
  | None =>
      if (String.length (buf b) =? 0)%nat then (b, None)
      else
        let '(wr', (n, werr)) := Write w (wr b) (buf b) in
        let werr :=
          match werr with
          | None => if (n <? String.length (buf b))%nat
                    then Some ErrShortWrite else None
          | Some e => Some e
          end in
        match werr with
        | Some e =>
            ({| wr := wr'; buf := strings.drop n (buf b); err := Some e |},
             Some e)
        | None => ({| wr := wr'; buf := ""; err := None |}, None)
        end
  end.

(** The loop of [WriteString]: while the text does not fit and no
    error is set, fill the buffer and flush it. *)
Fixpoint fill (fuel : nat) (b : Writer) (s : string) (nn : nat)
  : Writer * string * nat :=
  match fuel with
  | O => (b, s, nn)
  | S fuel' =>
      match err b with
      | Some _ => (b, s, nn)
      | None =>
          if (Available b <? String.length s)%nat then
            let n := Available b in
            let b1 := {| wr := wr b; buf := buf b ++ regexp.take n s;
                         err := err b |} in
            let b2 := fst (Flush b1) in
            fill fuel' b2 (strings.drop n s) (nn + n)
          else (b, s, nn)
      end
  end.

(** [b.WriteString(s)]; the loop runs at most once on a full buffer
    and once for each [size] bytes of [s], and what it leaves of [s]
    is copied into the buffer as far as there is room. *)
Definition WriteString (b : Writer) (s : string)
  : Writer * (nat * option error) :=
  let '(b, s, nn) := fill (String.length s + 2) b s O in
  match err b with
  | Some e => (b, (nn, Some e))
  | None =>
      let n := Nat.min (Available b) (String.length s) in
      ({| wr := wr b; buf := buf b ++ regexp.take n s; err := None |},
       (nn + n, None))
  end.

End Writer.

Arguments wr {w} _.
Arguments buf {w} _.
Arguments err {w} _.

End bufio.

(* ------------------------------------------------------------------ *)
(** ** Package [compress/gzip] *)

(** The DEFLATE coding is not part of this repository.  A model of it
    gives the reader that [gzip.NewReader] builds on an input that begins
    with the gzip magic (or the error of the rest of the header), and the
    bytes that the compressor of a [gzip.Writer] hands to the underlying
    writer: on each [Write], the header being part of the first, and on
    [Close], the trailer being part of it. *)
Record GzipModel : Type := {
  gzOpen : Stream -> error + Stream;
  coder : Type;
  newCoder : coder;
  encode : coder -> string -> coder * string;
  finish : coder -> string
}.

Module gzip.

(** ID1, ID2 and the compression method: 0x1f, 0x8b, 8 *)
Definition magic : string := String "031" (String "139" (String "008" "")).

(** [gzip.NewReader(r)]: it reads the ten bytes of the fixed header
    with [io.ReadFull] and checks the first three. *)
Definition NewReader (gz : GzipModel) (r : Stream) : error + Stream :=
  if (String.length (bytes r) <? 10)%nat then
    inl match ending r with
        | EOF => if (String.length (bytes r) =? 0)%nat
                 then EOF else ErrUnexpectedEOF
        | e => e
        end
  else if negb (strings.HasPrefix (bytes r) magic) then inl ErrHeader
  else gzOpen gz r.

Section Writer.

Variable gz : GzipModel.

(** [gzip.Writer] over the write end of the pipe *)
Record Writer : Type := {
  w : Pipe;
  compressor : coder gz;
  closed : bool;
  err : option error
}.

Definition NewWriter (p : Pipe) : Writer :=
  {| w := p; compressor := newCoder gz; closed := false; err := None |}.

(** the compressor passes its output on when it has some *)
Definition emit (p : Pipe) (out : string) : Pipe * option error :=
  if (String.length out =? 0)%nat then (p, None)
  else let '(p', (_, e)) := pipeWrite p out in (p', e).

(** [z.Write(p)]: all of [p] or, on an error, nothing is counted. *)
Definition Write (z : Writer) (p : string) : Writer * (nat * option error) :=
  match err z with
  | Some e => (z, (O, Some e))
  | None =>
      if closed z then
        ({| w := w z; compressor := compressor z; closed := true;
            err := Some ErrWriterClosed |}, (O, Some ErrWriterClosed))
      else
        let '(c, out) := encode gz (compressor z) p in
        let '(p', e) := emit (w z) out in
        ({| w := p'; compressor := c; closed := false; err := e |},
         (match e with Some _ => O | None => String.length p end, e))
  end.

(** [z.Close()] *)
Definition Close (z : Writer) : Writer * option error :=
  match err z with
  | Some e => (z, Some e)
  | None =>
      if closed z then (z, None)
      else
        let '(p', e) := emit (w z) (finish gz (compressor z)) in
        ({| w := p'; compressor := compressor z; closed := true;
            err := e |}, e)
  end.

Definition writer : WriterImpl :=
  Build_WriterImpl Writer Write w.

End Writer.

Arguments w {gz} _.
Arguments compressor {gz} _.
Arguments closed {gz} _.
Arguments err {gz} _.

End gzip.

(* ------------------------------------------------------------------ *)
(** ** [processLinks] *)

(** The calls of the goroutine that can return an error. *)
Inductive call : Type :=
| CallNewReader | CallReadString | CallWriteString | CallFlush
| CallGzipClose | CallDeferredFlush | CallInputClose.

(** The variables the goroutine shares with [processLinks], [err] and
    [written], and what it passes to [logError].  Two fields are there
    for the statements only: [counts] is the value of [written] after
    each iteration of the loop, and [failures] lists, in the order of the
    calls, every error that a call returned to the goroutine. *)
Record Vars : Type := {
  err : option error;
  written : Z;
  logged : list (string * error);
  counts : list Z;
  failures : list (call * error)
}.

Definition initial : Vars :=
  {| err := None; written := 0; logged := []; counts := []; failures := [] |}.

Definition returns (c : call) (e : error) (v : Vars) : Vars :=
  {| err := err v; written := written v; logged := logged v;
     counts := counts v; failures := failures v ++ [(c, e)] |}.

(** [err = e] *)
Definition setErr (e : error) (v : Vars) : Vars :=
  {| err := Some e; written := written v; logged := logged v;
     counts := counts v; failures := failures v |}.

(** [if err == nil { err = e }] *)
Definition setErrIfNil (e : error) (v : Vars) : Vars :=
  match err v with
  | None => setErr e v
  | Some _ => v
  end.

Definition logError (format : string) (e : error) (v : Vars) : Vars :=
  {| err := err v; written := written v;
     logged := logged v ++ [(format, e)];
     counts := counts v; failures := failures v |}.

(** [int64] arithmetic wraps around. *)
Definition wrap64 (z : Z) : Z :=
  ((z + 2 ^ 63) mod 2 ^ 64 - 2 ^ 63)%Z.

(** [written += int64(n)] *)
Definition addWritten (n : nat) (v : Vars) : Vars :=
  let total := wrap64 (written v + Z.of_nat n) in
  {| err := err v; written := total; logged := logged v;
     counts := counts v ++ [total]; failures := failures v |}.

Definition newline : ascii := "010"%char.

Section Goroutine.

Variable w : WriterImpl.
(** [gzipWriter.Close], [None] when [gzipWriter] is nil *)
Variable gzipWriterClose : option (wstate w -> wstate w * option error).
Variables (host : string) (cfg : Config).

Definition State : Type := (bufio.Writer w * Vars)%type.

(** The body of the loop on a line that [ReadString] returned without
    error; the boolean tells whether the loop goes on. *)
Definition iteration (line : string) (st : State) : State * bool :=
  let '(bufWriter, v) := st in
  let modifiedLine :=
    regexp.ReplaceAllStringFunc regexp.urlPattern line
      (fun originalURL => modifyURL originalURL host cfg) in
  let '(bufWriter, (n, writeErr)) :=
    bufio.WriteString w bufWriter modifiedLine in
  let v := addWritten n v in
  match writeErr with
  | Some e =>
      ((bufWriter,
        setErr (Errorf "写入文件错误: %v" e) (returns CallWriteString e v)),
       false)
  | None => ((bufWriter, v), true)
  end.

(** The [for] loop.  [bufReader.ReadString] collects bytes up to and
    with the newline: [line] is what it has collected of the current
    line and [unread] what the reader has not delivered yet.  At the end
    of the bytes it returns the collected text together with the
    stream's error.  The boolean is [true] when the loop was left by
    [break] and [false] when the goroutine returned from inside it. *)
Fixpoint forLoop (line unread : string) (ending : error) (st : State)
  : State * bool :=
  match unread with
  | EmptyString =>
      match ending with
      | EOF => (st, true)
      | readErr =>
          ((fst st,
            setErr (Errorf "读取行错误: %v" readErr)
                   (returns CallReadString readErr (snd st))),
           false)
      end
  | String c unread' =>
      if Ascii.eqb c newline then
        let '(st', continue) := iteration (line ++ String c "") st in
        if continue then forLoop "" unread' ending st' else (st', false)
      else forLoop (line ++ String c "") unread' ending st
  end.

(** The flush that follows the loop. *)
Definition flushAfterLoop (st : State) : State :=
  let '(bufWriter, v) := st in
  let '(bufWriter, flushErr) := bufio.Flush w bufWriter in
  match flushErr with
  | Some e => (bufWriter, setErrIfNil e (returns CallFlush e v))
  | None => (bufWriter, v)
  end.

(** The deferred function that closes the writers: first
    [gzipWriter.Close()] when there is a gzip writer, *)
Definition closeGzipWriter (st : State) : State :=
  let '(bufWriter, v) := st in
  match gzipWriterClose with
  | Some close =>
      let '(gzipWriter, closeErr) := close (bufio.wr bufWriter) in
      let bufWriter :=
        {| bufio.wr := gzipWriter; bufio.buf := bufio.buf bufWriter;
           bufio.err := bufio.err bufWriter |} in
      match closeErr with
      | Some e =>
          (bufWriter,
           setErrIfNil e
             (logError "gzipWriter close failed %v" e
                (returns CallGzipClose e v)))
      | None => (bufWriter, v)
      end
  | None => (bufWriter, v)
  end.

(** then [bufWriter.Flush()]. *)
Definition flushDeferred (st : State) : State :=
  let '(bufWriter, v) := st in
  let '(bufWriter, flushErr) := bufio.Flush w bufWriter in
  match flushErr with
  | Some e =>
      (bufWriter,
       setErrIfNil e
         (logError "writer flush failed %v" e
            (returns CallDeferredFlush e v)))
  | None => (bufWriter, v)
  end.

Definition closeWriters (st : State) : State :=
  flushDeferred (closeGzipWriter st).

(** From the creation of [bufWriter] to the end of the deferred
    function that closes the writers. *)
Definition copyLines (bufReader : Stream) (out : wstate w) : Pipe * Vars :=
  let st := (bufio.NewWriterSize w out, initial) in
  let '(st, broke) := forLoop "" (bytes bufReader) (ending bufReader) st in
  let st := if broke then flushAfterLoop st else st in
  let '(bufWriter, v) := closeWriters st in
  (under w (bufio.wr bufWriter), v).

End Goroutine.

(** The goroutine of [processLinks], with its deferred functions in the
    order in which they run: the writers, the gzip reader (its result is
    dropped), the input, the pipe. *)
Definition goroutine (gz : GzipModel) (input : ReadCloser)
           (compress host : string) (cfg : Config) (pipeWriter0 : Pipe)
  : Pipe * Vars :=
  let '(pipe, v) :=
    if String.eqb compress "gzip" then
      match gzip.NewReader gz (stream input) with
      | inl gzipErr =>
          (pipeWriter0,
           setErr (Errorf "gzip解压错误: %v" gzipErr)
                  (returns CallNewReader gzipErr initial))
      | inr gzipReader =>
          copyLines (gzip.writer gz) (Some (gzip.Close gz)) host cfg
                    gzipReader (gzip.NewWriter gz pipeWriter0)
      end
    else copyLines pipeWriter None host cfg (stream input) pipeWriter0 in
  let v :=
    match closeResult input with
    | Some e => logError "input close failed: %v" e (returns CallInputClose e v)
    | None => v
    end in
  (closeWrite pipe (err v), v).

(** The results of [processLinks] and the final values of the
    goroutine's variables. *)
Record Results : Type := {
  readerOut : Pipe;
  writtenOut : Z;
  errOut : option error;
  vars : Vars
}.

(** [processLinks] returns right after the [go] statement: [errOut] is
    nil and [writtenOut] is what [written] holds when the return statement
    reads it, that is after the [started] iterations of the loop that the
    goroutine has run by then (none when the caller returns before the
    goroutine is first scheduled).  [readerOut] is the read end of the
    pipe, given here in the state in which the goroutine leaves it: the
    bytes the [consumer] has received and the error that ends them. *)
Definition processLinks (gz : GzipModel) (consumer : Consumer) (started : nat)
           (input : ReadCloser) (compress host : string) (cfg : Config)
  : Results :=
  let '(pipe, v) := goroutine gz input compress host cfg (newPipe consumer) in
  {| readerOut := pipe;
     writtenOut := nth started (0%Z :: counts v) (written v);
     errOut := None;
     vars := v |}.

(** A model of gzip that stores without coding, for examples: a header
    of ten bytes, the text, a trailer of eight bytes. *)
Definition storedGzip : GzipModel :=
  {| gzOpen := fun r =>
       inr {| bytes := strings.drop 10 (bytes r); ending := ending r |};
     coder := bool;
     newCoder := false;
     encode := fun started p =>
       (true, if started then p else gzip.magic ++ "0000000" ++ p);
     finish := fun started =>
       if started then "00000000" else gzip.magic ++ "000000000000000" |}.

(* ------------------------------------------------------------------ *)
(** ** Notions of the design document used in the statements *)

(** The table of section 4.1: the kind that a third path segment
    selects. *)
Definition segmentKind (seg : string) : option MatchKind :=
  if in_dec string_dec seg ["releases"; "archive"] then Some Releases
  else if string_dec seg "blob" then Some Blob
  else if string_dec seg "raw" then Some Raw
  else if in_dec string_dec seg ["info"; "git-upload-pack"] then Some Clone
  else None.

(** The authorization gate of section 4.1, step 4, when it denies. *)
Definition apiDenied (cfg : Config) : bool :=
  negb (ForceAllowApi (Auth cfg))
  && (negb (String.eqb (Method (Auth cfg)) "header")
      || negb (Enabled (Auth cfg))).

Definition authConfig (enabled : bool) (method : string) (force : bool)
  : Config :=
  {| Auth := {| Enabled := enabled; Method := method; ForceAllowApi := force |};
     Shell := {| RewriteAPI := false |} |}.

(** The gate and the rewriter in the words of sections 4.2 and 4.3. *)
Definition gatedPrefixes : list string :=
  [ "https://github.com"; "https://raw.githubusercontent.com";
    "https://raw.github.com"; "https://gist.githubusercontent.com";
    "https://gist.github.com" ].

Definition isEligibleForRewrite (url : string) (rewriteApiHost : bool) : bool :=
  existsb (strings.HasPrefix url) gatedPrefixes
  || (rewriteApiHost && strings.HasPrefix url "https://api.github.com").

(** at most one leading scheme is removed *)
Definition stripScheme (url : string) : string :=
  if strings.HasPrefix url "https://" then strings.drop 8 url
  else if strings.HasPrefix url "http://" then strings.drop 7 url
  else url.

Definition rewrite (url proxyHost : string) (rewriteApiHost : bool) : string :=
  if isEligibleForRewrite url rewriteApiHost
  then "https://" ++ proxyHost ++ "/" ++ stripScheme url
  else url.

(** Every prefix of the gate is [https://] and a host without slash. *)
Definition schemeHost (p : string) : Prop :=
  exists q, p = "https://" ++ q /\ strings.free_of slash q = true.

(** The error that the goroutine records for the error [e] of a call. *)
Definition recorded (c : call) (e : error) : error :=
  match c with
  | CallNewReader => Errorf "gzip解压错误: %v" e
  | CallReadString => Errorf "读取行错误: %v" e
  | CallWriteString => Errorf "写入文件错误: %v" e
  | CallFlush | CallGzipClose | CallDeferredFlush | CallInputClose => e
  end.

(** The processing errors of section 7: all but the close of the input. *)
Definition processing (f : call * error) : bool :=
  match fst f with
  | CallInputClose => false
  | _ => true
  end.

(** The calls of the deferred functions. *)
Definition cleanup (c : call) : bool :=
  match c with
  | CallGzipClose | CallDeferredFlush | CallInputClose => true
  | _ => false
  end.

(** The first processing error among the errors met, as recorded. *)
Definition firstError (fs : list (call * error)) : option error :=
  match filter processing fs with
  | [] => None
  | (c, e) :: _ => Some (recorded c e)
  end.


(** The lines of a text that end in a newline, each with its newline, and
    [rewriteLine], what the goroutine writes for one of them. *)
Fixpoint completeLines (line text : string) : list string :=
  match text with
  | EmptyString => []
  | String c text' =>
      if Ascii.eqb c newline
      then (line ++ String c "") :: completeLines "" text'
      else completeLines (line ++ String c "") text'
  end.

Definition rewriteLine (host : string) (cfg : Config) (line : string) : string :=
  regexp.ReplaceAllStringFunc regexp.urlPattern line
    (fun originalURL => modifyURL originalURL host cfg).

(** [err] holds the first processing error met so far, and every error
    of a deferred call has been passed to [logError]. *)
Definition settled (v : Vars) : Prop :=
  err v = firstError (failures v)
  /\ forall c e, In (c, e) (failures v) -> cleanup c = true ->
                 exists format, In (format, e) (logged v).


(** The complete lines of a text, rewritten and joined. *)
Definition rewritten (host : string) (cfg : Config) (line text : string)
  : string :=
  String.concat "" (map (rewriteLine host cfg) (completeLines line text)).

Definition plainInput (text : string) : ReadCloser :=
  {| stream := {| bytes := text; ending := EOF |}; closeResult := None |}.

(** The run of section 8 of the design document. *)
Definition installLine : string :=
  "echo https://github.com/acme/widget/raw/main/install.sh"
  ++ String newline "".

Definition installLineRewritten : string :=
  "echo https://px.example/github.com/acme/widget/raw/main/install.sh"
  ++ String newline "".


(** What the loop makes of the end of the input: nothing at [EOF], the
    wrapped error otherwise. *)
Definition readError (ending : error) : option error :=
  match ending with
  | EOF => None
  | readErr => Some (Errorf "读取行错误: %v" readErr)
  end.

(** A buffered writer over a pipe whose consumer drains it, with no
    error so far, and the bytes that went into it. *)
Definition draining (b : bufio.Writer pipeWriter) : Prop :=
  bufio.err b = None /\ reader (bufio.wr b) = Drains
  /\ werr (bufio.wr b) = None.

Definition sent (b : bufio.Writer pipeWriter) : string :=
  received (bufio.wr b) ++ bufio.buf b.

(* ------------------------------------------------------------------ *)
(** ** [matchedMatchers] and [matchString] *)

Definition matchedMatchers : list string := ["blob"; "raw"; "gist"].

(** A Go [map[string]struct{}]: the keys it holds, each once. *)
Definition keySet : Type := list string.

Definition hasKey (m : keySet) (k : string) : bool :=
  existsb (String.eqb k) m.

(** [m[k] = struct{}{}] *)
Definition putKey (m : keySet) (k : string) : keySet :=
  if hasKey m k then m else k :: m.

Definition matchString (target : string) (stringsToMatch : list string)
  : bool :=
  let matchMap := fold_left putKey stringsToMatch [] in
  hasKey matchMap target.

(* ------------------------------------------------------------------ *)
(** ** [extractParts] *)

Section ExtractParts.

(** Package [net/url] is not part of this repository: [Values] is
  [url.Values], and [Parse] gives, for a string that [url.Parse]
  accepts, the [Path] of the parsed URL and the result of its [Query()]
  method. *)
Variable Values : Type.
Variable Parse : string -> error + (string * Values).

(** The five results of [extractParts]; [None] is Go's [nil]. *)
Record Parts : Type := {
repoOwner : string;
repoName : string;
remainingPath : string;
queryParams : option Values;
partsErr : option error
}.

Definition noParts (e : error) : Parts :=
{| repoOwner := ""; repoName := ""; remainingPath := "";
   queryParams := None; partsErr := Some e |}.

Definition extractParts (rawURL : string) : exec Parts :=
match Parse rawURL with
| inl err => Done (noParts err)
| inr (Path, Query) =>
    let pathParts := strings.Split Path slash in
    if (List.length pathParts <? 3)%nat then
      Done (noParts (Failure "URL path is too short"))
    else
      p1 <- index pathParts 1 ;;
      p2 <- index pathParts 2 ;;
      let repoOwner := "/" ++ p1 in
      let repoName := "/" ++ p2 in
      let remainingPath := strings.Join (skipn 3 pathParts) "/" in
      let remainingPath :=
        if negb (String.eqb remainingPath "")
        then "/" ++ remainingPath else remainingPath in
      Done {| repoOwner := repoOwner; repoName := repoName;
              remainingPath := remainingPath;
              queryParams := Some Query; partsErr := None |}
end.

End ExtractParts.

Arguments repoOwner {Values} _.
Arguments repoName {Values} _.
Arguments remainingPath {Values} _.
Arguments queryParams {Values} _.
Arguments partsErr {Values} _.

(* ------------------------------------------------------------------ *)
(** ** Further notions used in the statements *)

(** The kinds that a successful [Matcher] can return. *)
Definition kinds : list string :=
  ["releases"; "blob"; "raw"; "clone"; "gist"; "api"].

(** [Matcher] returned the error of status 400. *)
Definition badRequest (r : MatcherResult) : Prop :=
  exists e, failure r = Some e /\ httpStatus e = 400%Z.

(** [Matcher] returned, with that error and nothing else. *)
Definition badRequest_of (m : exec MatcherResult) : Prop :=
  exists e, m = Done {| user := ""; repo := ""; matcher := "";
                        failure := Some e |}
            /\ httpStatus e = 400%Z.

(** number of bytes [c] in [s] *)
Fixpoint count (c : ascii) (s : string) : nat :=
  match s with
  | EmptyString => O
  | String d s' => (if Ascii.eqb d c then 1 else 0) + count c s'
  end.

(** A stand-in for [url.Parse] in examples: the whole string is the path
    and there is no query. *)
Definition pathOnly (rawURL : string) : error + (string * unit) :=
  inr (rawURL, tt).

(* ================================================================== *)
(** * Properties *)

(* ------------------------------------------------------------------ *)
(** ** Strings *)

Section StringFacts.

Import strings.

Lemma HasPrefix_app (p s : string) : HasPrefix (p ++ s) p = true.
Proof.
  induction p as [|c p IH]; simpl; [reflexivity|].
  now rewrite Ascii.eqb_refl, IH.
Qed.

Lemma drop_app (p s : string) : drop (String.length p) (p ++ s) = s.
Proof. induction p as [|c p IH]; simpl; auto. Qed.

Lemma TrimPrefix_app (p s : string) : TrimPrefix (p ++ s) p = s.
Proof. unfold TrimPrefix. now rewrite HasPrefix_app, drop_app. Qed.

Lemma HasPrefix_inv (s p : string) :
  HasPrefix s p = true -> exists r, s = p ++ r.
Proof.
  revert s; induction p as [|c p IH]; intros s H; simpl in *.
  - now exists s.
  - destruct s as [|d s]; [discriminate|].
    apply andb_prop in H as [Hc Hp].
    apply Ascii.eqb_eq in Hc; subst d.
    destruct (IH _ Hp) as [r ->]. now exists r.
Qed.

Lemma Split_nonempty (s : string) (sep : ascii) : Split s sep <> [].
Proof.
  destruct s as [|c s]; simpl; [discriminate|].
  destruct (Ascii.eqb c sep); [discriminate|].
  destruct (Split s sep); discriminate.
Qed.

Lemma Split_free (sep : ascii) (a : string) :
  free_of sep a = true -> Split a sep = [a].
Proof.
  induction a as [|c a IH]; simpl; intros H; [reflexivity|].
  apply andb_prop in H as [Hc Ha].
  apply negb_true_iff in Hc. rewrite Hc, (IH Ha). reflexivity.
Qed.

Lemma Split_app (sep : ascii) (a rest : string) :
  free_of sep a = true ->
  Split (a ++ String sep rest) sep = a :: Split rest sep.
Proof.
  induction a as [|c a IH]; simpl; intros H.
  - now rewrite Ascii.eqb_refl.
  - apply andb_prop in H as [Hc Ha].
    apply negb_true_iff in Hc. rewrite Hc, (IH Ha). reflexivity.
Qed.

Lemma append_empty (a : string) : a ++ "" = a.
Proof. induction a; simpl; congruence. Qed.

(** A segment followed by nothing or by a slash and more. *)
Lemma Split_segment (a rest : string) :
  free_of slash a = true ->
  rest = "" \/ HasPrefix rest "/" = true ->
  exists more, Split (a ++ rest) slash = a :: more.
Proof.
  intros Ha [->|H].
  - exists []. rewrite append_empty. now apply Split_free.
  - apply HasPrefix_inv in H as [r ->]. simpl.
    exists (Split r slash). now apply Split_app.
Qed.

End StringFacts.

(* ------------------------------------------------------------------ *)
(** ** The classifier *)

Lemma thirdSegment_table (seg : string) :
  thirdSegment seg = option_map kindName (segmentKind seg).
Proof.
  unfold thirdSegment, segmentKind.
  destruct (in_dec string_dec seg ["releases"; "archive"]) as [H|H];
    [destruct H as [<-|[<-|[]]]; reflexivity|].
  destruct (string_dec seg "blob") as [->|Hb]; [reflexivity|].
  destruct (string_dec seg "raw") as [->|Hr]; [reflexivity|].
  destruct (in_dec string_dec seg ["info"; "git-upload-pack"]) as [H'|H'];
    [destruct H' as [<-|[<-|[]]]; reflexivity|].
  repeat match goal with
  | |- context [String.eqb seg ?lit] =>
      let E := fresh in
      assert (String.eqb seg lit = false) as E
        by (apply String.eqb_neq; intros ->;
            first [ solve [apply H; simpl; auto]
                  | solve [apply H'; simpl; auto]
                  | solve [now apply Hb] | solve [now apply Hr] ]);
      rewrite E; clear E
  end.
  reflexivity.
Qed.

(** The github.com branch on a path that has an owner, a repository and a
    third segment. *)
Lemma Matcher_github_three (owner repo seg rest : string) (cfg : Config) :
  strings.free_of slash owner = true ->
  strings.free_of slash repo = true ->
  strings.free_of slash seg = true ->
  rest = "" \/ strings.HasPrefix rest "/" = true ->
  Matcher ("https://github.com/" ++ owner ++ "/" ++ repo ++ "/" ++ seg ++ rest)
          cfg
  = match thirdSegment seg with
    | Some m => Done (ok owner repo m)
    | None =>
        Done (fail 400
          "Url Matched 'https://github.com*', but didn't match the next matcher")
    end.
Proof.
  intros Ho Hr Hs Hrest.
  change ("https://github.com/" ++ owner ++ "/" ++ repo ++ "/" ++ seg ++ rest)
    with ("https://github.com"
            ++ "/" ++ (owner ++ String slash (repo ++ String slash (seg ++ rest)))).
  unfold Matcher.
  rewrite HasPrefix_app, TrimPrefix_app, HasPrefix_app, TrimPrefix_app.
  rewrite !Split_app by assumption.
  destruct (Split_segment seg rest Hs Hrest) as [more ->].
  reflexivity.
Qed.

(** The api branch on [repos/<owner>/<repo>...]: the gate decides alone. *)
Lemma Matcher_api_repos (owner repo rest : string) (cfg : Config) :
  strings.free_of slash owner = true ->
  strings.free_of slash repo = true ->
  rest = "" \/ strings.HasPrefix rest "/" = true ->
  Matcher ("https://api.github.com/repos/" ++ owner ++ "/" ++ repo ++ rest) cfg
  = if apiDenied cfg
    then Done (fail 403
      "AuthHeader Unavailable, Need to open header auth to enable api proxy")
    else Done (ok owner repo "api").
Proof.
  intros Ho Hr Hrest.
  change ("https://api.github.com/repos/" ++ owner ++ "/" ++ repo ++ rest)
    with ("https://api.github.com/"
            ++ ("repos" ++ String slash (owner ++ String slash (repo ++ rest)))).
  unfold Matcher.
  replace (strings.HasPrefix _ "https://github.com") with false by reflexivity.
  replace (strings.HasPrefix _ "https://raw") with false by reflexivity.
  replace (strings.HasPrefix _ "https://gist") with false by reflexivity.
  rewrite HasPrefix_app, TrimPrefix_app.
  rewrite !Split_app by (assumption || reflexivity).
  destruct (Split_segment repo rest Hr Hrest) as [more ->].
  reflexivity.
Qed.

Lemma Matcher_api_users (owner rest : string) (cfg : Config) :
  strings.free_of slash owner = true ->
  rest = "" \/ strings.HasPrefix rest "/" = true ->
  Matcher ("https://api.github.com/users/" ++ owner ++ rest) cfg
  = if apiDenied cfg
    then Done (fail 403
      "AuthHeader Unavailable, Need to open header auth to enable api proxy")
    else Done (ok owner "" "api").
Proof.
  intros Ho Hrest.
  change ("https://api.github.com/users/" ++ owner ++ rest)
    with ("https://api.github.com/" ++ ("users" ++ String slash (owner ++ rest))).
  unfold Matcher.
  replace (strings.HasPrefix _ "https://github.com") with false by reflexivity.
  replace (strings.HasPrefix _ "https://raw") with false by reflexivity.
  replace (strings.HasPrefix _ "https://gist") with false by reflexivity.
  rewrite HasPrefix_app, TrimPrefix_app.
  rewrite !Split_app by (assumption || reflexivity).
  destruct (Split_segment owner rest Ho Hrest) as [more ->].
  reflexivity.
Qed.

Lemma index_in_range (parts : list string) (i : nat) :
  i < List.length parts -> exists p, index parts i = Done p.
Proof.
  intros H. unfold index.
  destruct (nth_error parts i) as [p|] eqn:E; [now exists p|].
  apply nth_error_None in E. lia.
Qed.

(** Outside the api branch [Matcher] always returns: the other branches
    test the length of [parts] before they index it. *)
Lemma Matcher_returns_outside_api (rawPath : string) (cfg : Config) :
  strings.HasPrefix rawPath "https://api.github.com/" = false ->
  exists r, Matcher rawPath cfg = Done r.
Proof.
  intros Hapi. unfold Matcher. rewrite Hapi.
  destruct (strings.HasPrefix rawPath "https://github.com").
  - match goal with
    | |- context [strings.Split ?s slash] => generalize (strings.Split s slash)
    end.
    intros parts. destruct (List.length parts <=? 2)%nat eqn:L; [eauto|].
    apply Nat.leb_gt in L.
    destruct (index_in_range parts 0) as [p0 ->]; [lia|].
    destruct (index_in_range parts 1) as [p1 ->]; [lia|].
    destruct (index_in_range parts 2) as [p2 E2]; [lia|].
    cbn [bind]. destruct (3 <=? List.length parts)%nat; [|eauto].
    rewrite E2. cbn [bind]. destruct (thirdSegment p2); eauto.
  - destruct (strings.HasPrefix rawPath "https://raw").
    + match goal with
      | |- context [strings.Split ?s slash] => generalize (strings.Split s slash)
      end.
      intros parts. destruct (List.length parts <=? 3)%nat eqn:L; [eauto|].
      apply Nat.leb_gt in L.
      destruct (index_in_range parts 1) as [p1 ->]; [lia|].
      destruct (index_in_range parts 2) as [p2 ->]; [lia|].
      cbn [bind]. eauto.
    + destruct (strings.HasPrefix rawPath "https://gist"); [|eauto].
      match goal with
      | |- context [strings.Split ?s slash] => generalize (strings.Split s slash)
      end.
      intros parts. destruct (List.length parts <=? 3)%nat eqn:L; [eauto|].
      apply Nat.leb_gt in L.
      destruct (index_in_range parts 1) as [p1 ->]; [lia|].
      cbn [bind]. eauto.
Qed.

(** C1.  A path [https://github.com/<owner>/<repo>/<seg>...] whose third
    segment is one of releases, archive, blob, raw, info, git-upload-pack
    is classified without error, with the first segment as owner, the
    second as repository and the kind of the table (Releases for releases
    and archive, Blob for blob, Raw for raw, Clone for info and
    git-upload-pack); any other third segment gives an error of status
    400. *)
Theorem Matcher_github_third_segment
  (owner repo seg rest : string) (cfg : Config) :
  strings.free_of slash owner = true ->
  strings.free_of slash repo = true ->
  strings.free_of slash seg = true ->
  rest = "" \/ strings.HasPrefix rest "/" = true ->
  let p := "https://github.com/" ++ owner ++ "/" ++ repo ++ "/" ++ seg ++ rest in
  (forall k, segmentKind seg = Some k ->
     Matcher p cfg
     = Done {| user := owner; repo := repo; matcher := kindName k;
               failure := None |})
  /\ (segmentKind seg = None ->
      exists e,
        Matcher p cfg
        = Done {| user := ""; repo := ""; matcher := ""; failure := Some e |}
        /\ httpStatus e = 400%Z).
Proof.
  intros Ho Hr Hs Hrest p. subst p.
  rewrite (Matcher_github_three owner repo seg rest cfg Ho Hr Hs Hrest).
  rewrite thirdSegment_table.
  split.
  - intros k ->. reflexivity.
  - intros ->. simpl. eexists. split; reflexivity.
Qed.

Lemma Matcher_github_third_segment_witness :
  Matcher "https://github.com/acme/widget/archive/refs/heads/main.zip"
          (authConfig false "" false)
  = Done {| user := "acme"; repo := "widget"; matcher := "releases";
            failure := None |}.
Proof.
  exact (proj1 (Matcher_github_third_segment "acme" "widget" "archive"
                  "/refs/heads/main.zip" (authConfig false "" false)
                  eq_refl eq_refl eq_refl (or_intror eq_refl))
               Releases eq_refl).
Defined.

(** C2.  [Matcher] is not total: on [https://api.github.com/repos] and on
    [https://api.github.com/users] the api branch indexes [parts[1]] of a
    one-element slice, which panics whatever the configuration; with
    [repos/<owner>] alone it is [parts[2]] that is out of range. *)
Theorem Matcher_api_short_path_panics (cfg : Config) :
  Matcher "https://api.github.com/repos" cfg = Panic "index out of range"
  /\ Matcher "https://api.github.com/users" cfg = Panic "index out of range"
  /\ Matcher "https://api.github.com/repos/acme" cfg
     = Panic "index out of range".
Proof. repeat split. Qed.

(** C3.  The authorization gate of the api branch is not reached on every
    path under [https://api.github.com/]: with [ForceAllowApi] set,
    [repos/acme] panics instead of giving kind api, and with header
    authentication off and [ForceAllowApi] unset, [users] panics instead
    of giving status 403. *)
Theorem Matcher_api_gate_not_reached :
  Matcher "https://api.github.com/repos/acme" (authConfig false "" true)
  = Panic "index out of range"
  /\ Matcher "https://api.github.com/users" (authConfig false "" false)
     = Panic "index out of range".
Proof. split; reflexivity. Qed.

(** C4 as the document states it fails: a path with exactly the two
    segments owner and repository is not classified successfully. *)
Lemma Matcher_github_two_segments_counterexample :
  ~ (exists r,
       Matcher "https://github.com/acme/widget" (authConfig false "" false)
       = Done r
       /\ failure r = None /\ user r = "acme" /\ repo r = "widget").
Proof. intros [r [H [Hf _]]]. injection H as <-. discriminate Hf. Qed.

(** C4, amended.  When the remainder of a path under [https://github.com]
    (one leading slash removed) has exactly two segments, [Matcher]
    returns the error of status 400 for too few parts, and no owner,
    repository or kind. *)
Theorem Matcher_github_two_segments (rest : string) (cfg : Config) :
  List.length
    (strings.Split
       (if strings.HasPrefix rest "/" then strings.TrimPrefix rest "/"
        else rest) slash) = 2%nat ->
  exists e,
    Matcher ("https://github.com" ++ rest) cfg
    = Done {| user := ""; repo := ""; matcher := ""; failure := Some e |}
    /\ httpStatus e = 400%Z.
Proof.
  intros H. unfold Matcher.
  rewrite HasPrefix_app, TrimPrefix_app, H. simpl.
  eexists. split; reflexivity.
Qed.

Lemma Matcher_github_two_segments_witness :
  exists e,
    Matcher "https://github.com/acme/widget" (authConfig true "header" true)
    = Done {| user := ""; repo := ""; matcher := ""; failure := Some e |}
    /\ httpStatus e = 400%Z.
Proof.
  exact (Matcher_github_two_segments "/acme/widget"
           (authConfig true "header" true) eq_refl).
Defined.

(* ------------------------------------------------------------------ *)
(** ** The eligibility gate and the link rewriter *)

Lemma EditorMatcher_gate (url : string) (cfg : Config) :
  EditorMatcher url cfg
  = (isEligibleForRewrite url (RewriteAPI (Shell cfg)), None).
Proof.
  unfold EditorMatcher, isEligibleForRewrite, gatedPrefixes, existsb.
  repeat match goal with
  | |- context [strings.HasPrefix url ?p] =>
      destruct (strings.HasPrefix url p); try reflexivity
  end;
  destruct (RewriteAPI (Shell cfg)); reflexivity.
Qed.

(** Every gated host begins, after the scheme, with a byte other than
    [h]: once [https://] is gone, [http://] is not a prefix. *)
Lemma eligible_single_strip (url : string) (api : bool) :
  isEligibleForRewrite url api = true ->
  strings.TrimPrefix (strings.TrimPrefix url "https://") "http://"
  = stripScheme url.
Proof.
  unfold isEligibleForRewrite, gatedPrefixes, existsb. intros H.
  assert (exists host rest,
            url = "https://" ++ host ++ rest
            /\ strings.HasPrefix (host ++ rest) "h" = false) as (h & r & -> & Hh).
  { repeat (apply orb_prop in H as [H|H]); try discriminate;
      try (apply andb_prop in H as [_ H]);
      apply HasPrefix_inv in H as [r ->];
      [ exists "github.com" | exists "raw.githubusercontent.com"
      | exists "raw.github.com" | exists "gist.githubusercontent.com"
      | exists "gist.github.com" | exists "api.github.com" ];
      exists r; split; reflexivity. }
  unfold stripScheme.
  rewrite TrimPrefix_app, HasPrefix_app.
  change (strings.drop 8 ("https://" ++ h ++ r)) with (h ++ r).
  unfold strings.TrimPrefix.
  destruct (h ++ r) as [|c s]; [reflexivity|].
  simpl in Hh |- *. rewrite andb_true_r in Hh. now rewrite Hh.
Qed.

(** [modifyURL] through the gate, as the idempotence proof uses it. *)
Lemma modifyURL_is_rewrite_aux (url host : string) (cfg : Config) :
  modifyURL url host cfg = rewrite url host (RewriteAPI (Shell cfg)).
Proof.
  unfold modifyURL, rewrite. rewrite EditorMatcher_gate.
  destruct (isEligibleForRewrite url (RewriteAPI (Shell cfg))) eqn:E;
    [|reflexivity].
  now rewrite (eligible_single_strip _ _ E).
Qed.

(** C5.  [modifyURL] is the rewriter of the design document: a url that
    starts with one of the five fixed prefixes, or with
    [https://api.github.com] while [RewriteAPI] is set, becomes
    [https://<host>/] followed by the url without one leading scheme;
    any other url is returned unchanged.  [modifyURL] is a total
    function, so it has a result on every input. *)
Theorem modifyURL_is_rewrite (url host : string) (cfg : Config) :
  modifyURL url host cfg = rewrite url host (RewriteAPI (Shell cfg)).
Proof.
  unfold modifyURL. rewrite EditorMatcher_gate. unfold rewrite.
  destruct (isEligibleForRewrite url (RewriteAPI (Shell cfg))) eqn:Gate.
  - (* eligible: the two calls of TrimPrefix remove one scheme *)
    f_equal. f_equal. f_equal.
    exact (eligible_single_strip url (RewriteAPI (Shell cfg)) Gate).
  - (* not eligible: the url is returned as it is *)
    reflexivity.
Qed.

(** A prefix without a slash that matches [host/u] already matches
    [host/]. *)
Lemma HasPrefix_before_slash (q host u : string) :
  strings.free_of slash q = true ->
  strings.HasPrefix (host ++ "/" ++ u) q = true ->
  strings.HasPrefix (host ++ "/") q = true.
Proof.
  revert q; induction host as [|c host IH]; intros q Hq H.
  - destruct q as [|d q]; [reflexivity|].
    cbn [append strings.HasPrefix] in H. cbn [strings.free_of] in Hq.
    apply andb_prop in Hq as [Hd _]. apply andb_prop in H as [Hs _].
    apply Ascii.eqb_eq in Hs. subst d.
    unfold slash in Hd. rewrite Ascii.eqb_refl in Hd. discriminate Hd.
  - destruct q as [|d q]; [reflexivity|].
    cbn [append strings.HasPrefix] in H |- *. cbn [strings.free_of] in Hq.
    apply andb_prop in Hq as [_ Hq]. apply andb_prop in H as [-> H].
    cbn [andb]. now apply IH.
Qed.

Lemma HasPrefix_app_both (p x q : string) :
  strings.HasPrefix (p ++ x) (p ++ q) = strings.HasPrefix x q.
Proof.
  induction p as [|c p IH]; cbn [append strings.HasPrefix]; [reflexivity|].
  now rewrite Ascii.eqb_refl, IH.
Qed.

Lemma gated_before_slash (q host u : string) :
  strings.free_of slash q = true ->
  strings.HasPrefix ("https://" ++ host ++ "/" ++ u) ("https://" ++ q) = true ->
  strings.HasPrefix ("https://" ++ host ++ "/") ("https://" ++ q) = true.
Proof. rewrite !HasPrefix_app_both. apply HasPrefix_before_slash. Qed.

Lemma gatedPrefixes_schemeHost : Forall schemeHost gatedPrefixes.
Proof.
  unfold gatedPrefixes.
  repeat constructor;
    [ exists "github.com" | exists "raw.githubusercontent.com"
    | exists "raw.github.com" | exists "gist.githubusercontent.com"
    | exists "gist.github.com" ]; split; reflexivity.
Qed.

Lemma existsb_before_slash (ps : list string) (host u : string) :
  Forall schemeHost ps ->
  existsb (strings.HasPrefix ("https://" ++ host ++ "/" ++ u)) ps = true ->
  existsb (strings.HasPrefix ("https://" ++ host ++ "/")) ps = true.
Proof.
  induction 1 as [|p ps [q [-> Hq]] _ IH]; cbn [existsb]; intros H;
    [discriminate|].
  apply orb_prop in H as [H|H].
  - now rewrite (gated_before_slash q host u Hq H).
  - rewrite (IH H). apply orb_true_r.
Qed.

Lemma gate_before_slash (host u : string) (api : bool) :
  isEligibleForRewrite ("https://" ++ host ++ "/" ++ u) api = true ->
  isEligibleForRewrite ("https://" ++ host ++ "/") api = true.
Proof.
  unfold isEligibleForRewrite. intros H.
  apply orb_prop in H as [H|H].
  - now rewrite (existsb_before_slash _ _ _ gatedPrefixes_schemeHost H).
  - apply andb_prop in H as [-> H].
    pose proof (gated_before_slash "api.github.com" host u eq_refl H) as G.
    cbn [append] in G |- *. rewrite G. apply orb_true_r.
Qed.

Lemma rewrite_idempotent (url host : string) (api : bool) :
  isEligibleForRewrite ("https://" ++ host ++ "/") api = false ->
  rewrite (rewrite url host api) host api = rewrite url host api.
Proof.
  intros Hgate. unfold rewrite at 2 3.
  destruct (isEligibleForRewrite url api) eqn:E.
  - unfold rewrite.
    destruct (isEligibleForRewrite
                ("https://" ++ host ++ "/" ++ stripScheme url) api) eqn:E';
      [|reflexivity].
    apply gate_before_slash in E'. congruence.
  - unfold rewrite. now rewrite E.
Qed.

(** C6.  Rewriting twice equals rewriting once, for the host
    [proxy.example] and for every host such that the gate rejects
    [https://<host>/]: the gate's prefixes contain no slash after the
    scheme, so it rejects every rewritten url as well. *)
Theorem modifyURL_idempotent :
  (forall (url : string) (cfg : Config),
      modifyURL (modifyURL url "proxy.example" cfg) "proxy.example" cfg
      = modifyURL url "proxy.example" cfg)
  /\ (forall (host url : string) (cfg : Config),
         fst (EditorMatcher ("https://" ++ host ++ "/") cfg) = false ->
         modifyURL (modifyURL url host cfg) host cfg = modifyURL url host cfg).
Proof.
  assert (forall host url cfg,
             fst (EditorMatcher ("https://" ++ host ++ "/") cfg) = false ->
             modifyURL (modifyURL url host cfg) host cfg
             = modifyURL url host cfg) as G.
  { intros host url cfg H. rewrite EditorMatcher_gate in H. simpl in H.
    rewrite !modifyURL_is_rewrite_aux. now apply rewrite_idempotent. }
  split; [|exact G].
  intros url cfg. apply G.
  rewrite EditorMatcher_gate. unfold fst.
  destruct (RewriteAPI (Shell cfg)); reflexivity.
Qed.

Lemma modifyURL_idempotent_witness :
  modifyURL (modifyURL "https://github.com/a/b" "px.example"
               (authConfig false "" false))
            "px.example" (authConfig false "" false)
  = "https://px.example/github.com/a/b".
Proof.
  exact (proj2 modifyURL_idempotent "px.example" "https://github.com/a/b"
           (authConfig false "" false) eq_refl).
Defined.

(* ------------------------------------------------------------------ *)
(** ** The buffered writer *)

Section TakeDrop.

Import strings regexp.

Lemma append_assoc (a b c : string) : (a ++ b) ++ c = a ++ (b ++ c).
Proof. induction a; simpl; congruence. Qed.

Lemma length_append (a b : string) :
  String.length (a ++ b) = String.length a + String.length b.
Proof. induction a; simpl; congruence. Qed.

Lemma take_drop (n : nat) (s : string) : take n s ++ drop n s = s.
Proof.
  revert s; induction n as [|n IH]; intros [|c s]; simpl; try reflexivity.
  now rewrite IH.
Qed.

Lemma length_drop (n : nat) (s : string) :
  String.length (drop n s) = String.length s - n.
Proof.
  revert s; induction n as [|n IH]; intros [|c s]; simpl; auto.
Qed.

Lemma take_all (n : nat) (s : string) :
  String.length s <= n -> take n s = s.
Proof.
  revert s; induction n as [|n IH]; intros [|c s]; simpl; intros H;
    try reflexivity; try lia.
  rewrite IH; [reflexivity|lia].
Qed.

End TakeDrop.

Section FillExits.

Variable w : WriterImpl.

(** The fuel of [WriteString] is enough: its loop ends because an
    error is set or because the rest of the text fits. *)
Lemma fill_exits (fuel : nat) (b : bufio.Writer w) (s : string) (nn : nat) :
  bufio.err b <> None
  \/ String.length s + (if (bufio.Available w b =? 0)%nat then 1 else 0)
     < fuel ->
  let '(b', s', nn') := bufio.fill w fuel b s nn in
  bufio.err b' <> None \/ String.length s' <= bufio.Available w b'.
Proof.
  revert b s nn; induction fuel as [|fuel IH]; intros b s nn H.
  - destruct H as [H|H]; [now left|lia].
  - cbn [bufio.fill].
    destruct (bufio.err b) as [e|] eqn:E; [left; congruence|].
    destruct H as [H|H]; [congruence|].
    destruct (bufio.Available w b <? String.length s)%nat eqn:L.
    2:{ right. apply Nat.ltb_ge in L. exact L. }
    apply Nat.ltb_lt in L.
    apply IH. clear IH.
    unfold bufio.Flush. cbn [bufio.err bufio.buf bufio.wr].
    set (n := bufio.Available w b) in *.
    set (full := (bufio.buf b ++ regexp.take n s)%string).
    destruct (String.length full =? 0)%nat eqn:Z.
    + (* nothing buffered: the buffer had room, so bytes were taken *)
      exfalso. apply Nat.eqb_eq in Z. subst full.
      rewrite length_append in Z.
      assert (String.length (regexp.take n s) = 0) as Z2 by lia.
      assert (String.length (bufio.buf b) = 0) as Z1 by lia.
      assert (n = bufio.size) as Hn
          by (subst n; unfold bufio.Available; rewrite Z1; apply Nat.sub_0_r).
      pose proof (take_drop n s) as TD.
      apply (f_equal String.length) in TD.
      rewrite length_append, length_drop, Z2 in TD.
      unfold bufio.size in Hn. lia.
    + destruct (Write w (bufio.wr b) full) as [wr' [k [e|]]];
        cbn [fst bufio.err]; [left; discriminate|].
      destruct (k <? String.length full)%nat;
        cbn [fst bufio.err]; [left; discriminate|].
      right. unfold bufio.Available at 1. cbn [bufio.buf String.length].
      rewrite length_drop.
      change (bufio.size - 0 =? 0)%nat with false.
      destruct (n =? 0)%nat eqn:N.
      * apply Nat.eqb_eq in N. lia.
      * apply Nat.eqb_neq in N. lia.
Qed.

End FillExits.

(* ------------------------------------------------------------------ *)
(** ** Without compression, into a pipe that is drained *)

Lemma Flush_draining (b : bufio.Writer pipeWriter) :
  draining b ->
  let r := bufio.Flush pipeWriter b in
  snd r = None /\ draining (fst r) /\ sent (fst r) = sent b
  /\ bufio.buf (fst r) = "".
Proof.
  intros (He & Hr & Hw). unfold bufio.Flush. rewrite He.
  destruct (String.length (bufio.buf b) =? 0)%nat eqn:Z.
  - cbn [fst snd]. repeat split; try assumption.
    apply Nat.eqb_eq in Z. now destruct (bufio.buf b).
  - cbn [Write pipeWriter]. unfold pipeWrite. rewrite Hr.
    rewrite Nat.ltb_irrefl. cbn [fst snd].
    unfold draining, sent. cbn [bufio.err bufio.wr bufio.buf reader werr received].
    rewrite append_empty. repeat split; assumption.
Qed.

Lemma fill_draining (fuel : nat) (b : bufio.Writer pipeWriter)
      (s : string) (nn : nat) :
  draining b ->
  let '(b', s', nn') := bufio.fill pipeWriter fuel b s nn in
  draining b' /\ sent b' ++ s' = sent b ++ s
  /\ nn' + String.length s' = nn + String.length s.
Proof.
  revert b s nn; induction fuel as [|fuel IH]; intros b s nn Hd.
  - cbn [bufio.fill]. split; [assumption|split; reflexivity].
  - cbn [bufio.fill]. destruct Hd as (He & Hr & Hw). rewrite He.
    destruct (bufio.Available pipeWriter b <? String.length s)%nat eqn:L;
      [|split; [repeat split; assumption|split; reflexivity]].
    apply Nat.ltb_lt in L.
    set (n := bufio.Available pipeWriter b) in *.
    set (b1 := {| bufio.wr := bufio.wr b;
                  bufio.buf := bufio.buf b ++ regexp.take n s;
                  bufio.err := None |}).
    assert (draining b1) as Hd1 by (repeat split; assumption).
    destruct (Flush_draining b1 Hd1) as (_ & Hd2 & Hs2 & _).
    specialize (IH (fst (bufio.Flush pipeWriter b1)) (strings.drop n s)
                   (nn + n) Hd2).
    destruct (bufio.fill pipeWriter fuel _ _ _) as [[b' s'] nn'].
    destruct IH as (Hd' & Hs' & Hn'). split; [assumption|]. split.
    + rewrite Hs', Hs2. unfold sent, b1. cbn [bufio.wr bufio.buf].
      now rewrite !append_assoc, take_drop.
    + rewrite Hn', length_drop. lia.
Qed.

Lemma WriteString_draining (b : bufio.Writer pipeWriter) (s : string) :
  draining b ->
  let r := bufio.WriteString pipeWriter b s in
  snd r = (String.length s, None)
  /\ draining (fst r) /\ sent (fst r) = sent b ++ s.
Proof.
  intros Hd. unfold bufio.WriteString.
  pose proof (fill_draining (String.length s + 2) b s 0 Hd) as H.
  pose proof (fill_exits pipeWriter (String.length s + 2) b s 0) as X.
  destruct (bufio.fill pipeWriter (String.length s + 2) b s 0)
    as [[b' s'] nn'].
  destruct H as ((He & Hr & Hw) & Hs & Hn).
  destruct X as [X|X].
  { right. destruct (bufio.Available pipeWriter b =? 0)%nat; lia. }
  { congruence. }
  rewrite He. cbn [fst snd].
  rewrite (Nat.min_r _ _ X), (take_all _ _ (Nat.le_refl _)).
  split; [f_equal; lia|]. split; [repeat split; assumption|].
  rewrite <- Hs. unfold sent. cbn [bufio.wr bufio.buf].
  now rewrite append_assoc.
Qed.

Section Identity.

Variables (host : string) (cfg : Config).

Local Abbreviation loop := (forLoop pipeWriter host cfg).

(** Every complete line is written, rewritten, in its place; the text
    behind the last newline is returned by [ReadString] with the end of
    the stream and is not written. *)
Lemma forLoop_draining (text line : string) (ending : error)
      (st : State pipeWriter) :
  draining (fst st) -> err (snd st) = None ->
  let r := loop line text ending st in
  draining (fst (fst r))
  /\ sent (fst (fst r)) = sent (fst st) ++ rewritten host cfg line text
  /\ err (snd (fst r)) = readError ending
  /\ snd r = match readError ending with None => true | Some _ => false end.
Proof.
  revert line st; induction text as [|c text IH]; intros line st Hd He.
  - cbn [forLoop]. unfold rewritten. cbn [completeLines map String.concat].
    rewrite append_empty.
    destruct ending; cbn [fst snd readError];
      (split; [exact Hd|]); repeat split; assumption.
  - cbn [forLoop]. unfold rewritten. cbn [completeLines].
    destruct (Ascii.eqb c newline); [|now apply IH].
    destruct st as [b v]. unfold iteration.
    destruct (WriteString_draining b
                (rewriteLine host cfg (line ++ String c "")) Hd)
      as (Hres & Hd' & Hs').
    unfold rewriteLine in Hres, Hd', Hs'.
    destruct (bufio.WriteString pipeWriter b _) as [b' [n e]].
    cbn [fst snd] in *.
    specialize (IH "" (b', addWritten n v) Hd' He).
    injection Hres as -> ->.
    cbn [fst snd] in IH |- *.
    destruct IH as (H1 & H2 & H3 & H4).
    split; [exact H1|]. split; [|split; assumption].
    rewrite H2, Hs', append_assoc. f_equal.
    cbn [map]. unfold rewritten, rewriteLine.
    destruct (map _ (completeLines "" text)); cbn [String.concat];
      [now rewrite append_empty | reflexivity].
Qed.

Lemma copyLines_draining (input : Stream) (p : Pipe) :
  reader p = Drains -> werr p = None ->
  let r := copyLines pipeWriter None host cfg input p in
  received (fst r) = received p ++ rewritten host cfg "" (bytes input)
  /\ werr (fst r) = None
  /\ err (snd r) = readError (ending input).
Proof.
  intros Hr Hw. unfold copyLines, closeWriters.
  assert (draining (bufio.NewWriterSize pipeWriter p)) as Hd
      by (repeat split; assumption).
  destruct (forLoop_draining (bytes input) "" (ending input)
              (bufio.NewWriterSize pipeWriter p, initial) Hd eq_refl)
    as (H1 & H2 & H3 & H4).
  destruct (loop "" (bytes input) (ending input) _) as [[b v] broke].
  cbn [fst snd] in *. subst broke.
  assert (exists b1 v1,
             (if match readError (ending input) with
                 | None => true | Some _ => false end
              then flushAfterLoop pipeWriter (b, v) else (b, v)) = (b1, v1)
             /\ draining b1 /\ sent b1 = sent b /\ err v1 = err v)
    as (b1 & v1 & -> & Hd1 & Hs1 & He1).
  { destruct (readError (ending input)).
    - exists b, v. split; [reflexivity|]. split; [exact H1|].
      split; reflexivity.
    - unfold flushAfterLoop.
      destruct (Flush_draining b H1) as (Hn & Hd1 & Hs1 & _).
      destruct (bufio.Flush pipeWriter b) as [b1 e1].
      cbn [fst snd] in *. subst e1.
      exists b1, v. split; [reflexivity|]. split; [exact Hd1|].
      split; [exact Hs1|reflexivity]. }
  unfold closeGzipWriter, flushDeferred.
  destruct (Flush_draining b1 Hd1) as (Hn & Hd2 & Hs2 & Hb2).
  destruct (bufio.Flush pipeWriter b1) as [b2 e2].
  cbn [fst snd] in *. subst e2. cbn [under pipeWriter fst snd].
  split; [|split; [apply Hd2|congruence]].
  unfold sent in Hs2, Hs1, H2. rewrite Hb2, append_empty in Hs2.
  cbn [bufio.NewWriterSize bufio.wr bufio.buf] in H2.
  rewrite append_empty in H2. congruence.
Qed.

End Identity.

(** Without compression, a consumer that drains the output receives the
    complete lines of the input, rewritten, in their order, and then the
    end of the stream or the wrapped error of the read; what follows the
    last newline is not part of the output. *)
Lemma processLinks_identity_output
      (gz : GzipModel) (started : nat) (input : ReadCloser)
      (compress host : string) (cfg : Config) :
  String.eqb compress "gzip" = false ->
  drain (readerOut (processLinks gz Drains started input compress host cfg))
  = (rewritten host cfg "" (bytes (stream input)),
     Some (match readError (ending (stream input)) with
           | Some e => e
           | None => EOF
           end)).
Proof.
  intros Hc. unfold processLinks, goroutine. rewrite Hc.
  destruct (copyLines_draining host cfg (stream input) (newPipe Drains)
              eq_refl eq_refl) as (H1 & H2 & H3).
  destruct (copyLines pipeWriter None host cfg (stream input) _) as [pipe v].
  cbn [fst snd newPipe received] in *.
  unfold drain, closeWrite. cbn [readerOut].
  rewrite H2.
  destruct (closeResult input); cbn [received werr err logError returns];
    rewrite H1, H3; reflexivity.
Qed.

Lemma completeLines_none (line tail : string) :
  strings.free_of newline tail = true -> completeLines line tail = [].
Proof.
  revert line; induction tail as [|c tail IH]; intros line H; [reflexivity|].
  cbn [strings.free_of] in H. apply andb_prop in H as [Hc Ht].
  apply negb_true_iff in Hc. cbn [completeLines]. rewrite Hc. now apply IH.
Qed.

Lemma completeLines_tail (text line tail : string) :
  strings.free_of newline tail = true ->
  completeLines line (text ++ String newline tail)
  = completeLines line (text ++ String newline "").
Proof.
  intros Ht. revert line; induction text as [|c text IH]; intros line.
  - cbn [append completeLines]. rewrite Ascii.eqb_refl.
    now rewrite (completeLines_none "" tail Ht).
  - cbn [append completeLines]. destruct (Ascii.eqb c newline); now rewrite IH.
Qed.

(** The text behind the last newline never reaches the output: with or
    without it, the consumer receives the same bytes and the same end. *)
Lemma processLinks_identity_tail
      (gz : GzipModel) (started : nat) (text tail : string)
      (compress host : string) (cfg : Config) :
  String.eqb compress "gzip" = false ->
  strings.free_of newline tail = true ->
  drain (readerOut (processLinks gz Drains started
                      (plainInput (text ++ String newline tail))
                      compress host cfg))
  = drain (readerOut (processLinks gz Drains started
                        (plainInput (text ++ String newline ""))
                        compress host cfg)).
Proof.
  intros Hc Ht. rewrite !processLinks_identity_output by assumption.
  cbn [plainInput stream bytes ending]. unfold rewritten.
  now rewrite (completeLines_tail text "" tail Ht).
Qed.

(* ------------------------------------------------------------------ *)
(** ** The streaming transformer: concrete runs *)

(** C7.  On the single line
    [echo https://github.com/acme/widget/raw/main/install.sh] with its
    newline, without compression and with host [px.example], the output
    drains to [echo https://px.example/github.com/acme/widget/raw/main/install.sh]
    with its newline, 67 bytes, and the goroutine counts 67 bytes in its
    variable.  But the value that [processLinks] returns to its caller is
    read when the function returns: it is 0, and not the length of the
    output, when the goroutine has not yet handled the line. *)
Theorem processLinks_install_line (gz : GzipModel) (cfg : Config) :
  let run started :=
    processLinks gz Drains started (plainInput installLine) ""
      "px.example" cfg in
  drain (readerOut (run 0)) = (installLineRewritten, Some EOF)
  /\ String.length installLineRewritten = 67
  /\ errOut (run 0) = None
  /\ written (vars (run 0)) = 67%Z
  /\ writtenOut (run 0) = 0%Z
  /\ forall started, writtenOut (run started)
                     = if (started =? 0)%nat then 0%Z else 67%Z.
Proof.
  cbv zeta. repeat split; try (vm_compute; reflexivity).
  intros [|[|[|started]]]; vm_compute; reflexivity.
Qed.

(** C8.  A last line without newline is lost: of the two lines
    [first https://github.com/a/b] (with newline) and
    [last https://github.com/c/d] (without), read without compression by
    a consumer that drains the output, only the first reaches the output,
    rewritten, and the stream ends regularly. *)
Theorem processLinks_drops_unterminated_line (gz : GzipModel) (cfg : Config) :
  let text := "first https://github.com/a/b" ++ String newline
              "last https://github.com/c/d" in
  let r := processLinks gz Drains 0 (plainInput text) "" "px.example" cfg in
  drain (readerOut r)
  = ("first https://px.example/github.com/a/b" ++ String newline "", Some EOF)
  /\ err (vars r) = None
  /\ processLinks gz Drains 0 (plainInput text) "" "px.example" cfg
     = processLinks gz Drains 0
         (plainInput ("first https://github.com/a/b" ++ String newline ""))
         "" "px.example" cfg.
Proof.
  cbv zeta. vm_compute. repeat split.
Qed.

(* ------------------------------------------------------------------ *)
(** ** The streaming transformer: errors *)




(** *** The first error wins *)







Lemma settled_addWritten (n : nat) (v : Vars) :
  settled v -> settled (addWritten n v).
Proof. intros H; exact H. Qed.

Section GoroutineFacts.

Variable w : WriterImpl.
Variable gzipWriterClose : option (wstate w -> wstate w * option error).
Variables (host : string) (cfg : Config).

(** Neither writing nor closing the compressor closes the pipe. *)
Hypothesis Write_open :
  forall s b, werr (under w (fst (Write w s b))) = werr (under w s).
Hypothesis Close_open :
  forall close s, gzipWriterClose = Some close ->
                  werr (under w (fst (close s))) = werr (under w s).

Local Abbreviation pipeErr b := (werr (under w (bufio.wr b))).

















End GoroutineFacts.









(* ================================================================== *)
(** * Further properties of the classifier *)

Lemma HasPrefix_longer (s p q : string) :
  strings.HasPrefix s p = false -> strings.HasPrefix s (p ++ q) = false.
Proof.
  revert s; induction p as [|c p IH]; intros s H; [discriminate H|].
  cbn [append strings.HasPrefix] in H |- *.
  destruct s as [|d s]; [reflexivity|].
  destruct (Ascii.eqb d c); [|reflexivity].
  cbn [andb] in H |- *. now apply IH.
Qed.

Lemma thirdSegment_kinds (seg m : string) :
  thirdSegment seg = Some m -> In m kinds.
Proof.
  unfold thirdSegment, kinds.
  repeat match goal with
  | |- context [if ?b then _ else _] => destruct b
  end; intros [= <-]; simpl; tauto.
Qed.

(** X1.  Outside the api branch [Matcher] never panics: a path that does
    not start with [https://api.github.com/] always gets a result. *)
Theorem Matcher_total_outside_api (rawPath : string) (cfg : Config) :
  strings.HasPrefix rawPath "https://api.github.com/" = false ->
  exists r, Matcher rawPath cfg = Done r.
Proof. apply Matcher_returns_outside_api. Qed.

Lemma Matcher_total_outside_api_witness :
  exists r, Matcher "https://gist.github.com/" (authConfig false "" false)
            = Done r.
Proof.
  exact (Matcher_total_outside_api "https://gist.github.com/"
           (authConfig false "" false) eq_refl).
Defined.

(** The api branch on the segments of what follows the prefix. *)
Lemma Matcher_api_parts (rest : string) (cfg : Config) :
  Matcher ("https://api.github.com/" ++ rest) cfg
  = let parts := strings.Split rest slash in
    p0 <- index parts 0 ;;
    ur <- (if String.eqb p0 "repos" then
             u <- index parts 1 ;;
             r <- index parts 2 ;;
             Done (u, r)
           else Done ("", "")) ;;
    p0' <- index parts 0 ;;
    ur <- (if String.eqb p0' "users" then
             u <- index parts 1 ;;
             Done (u, snd ur)
           else Done ur) ;;
    if apiDenied cfg
    then Done (fail 403
      "AuthHeader Unavailable, Need to open header auth to enable api proxy")
    else Done (ok (fst ur) (snd ur) "api").
Proof.
  unfold Matcher.
  replace (strings.HasPrefix _ "https://github.com") with false by reflexivity.
  replace (strings.HasPrefix _ "https://raw") with false by reflexivity.
  replace (strings.HasPrefix _ "https://gist") with false by reflexivity.
  rewrite HasPrefix_app, TrimPrefix_app. reflexivity.
Qed.

(** X2.  On a path under [https://api.github.com/], [Matcher] panics
    exactly when the first segment is [repos] and fewer than three
    segments follow the prefix, or it is [users] and fewer than two do. *)
Theorem Matcher_api_panics_iff (rest : string) (cfg : Config) :
  let parts := strings.Split rest slash in
  (exists reason,
      Matcher ("https://api.github.com/" ++ rest) cfg = Panic reason)
  <-> (hd "" parts = "repos" /\ List.length parts < 3)
      \/ (hd "" parts = "users" /\ List.length parts < 2).
Proof.
  rewrite Matcher_api_parts. cbv zeta.
  pose proof (Split_nonempty rest slash) as Hne.
  destruct (strings.Split rest slash) as [|p0 l]; [contradiction|]. clear Hne.
  cbn [hd index nth_error bind List.length].
  destruct (String.eqb p0 "repos") eqn:R.
  - apply String.eqb_eq in R. subst p0.
    change (String.eqb "repos" "users") with false.
    destruct l as [|p1 [|p2 l]]; cbn [index nth_error bind List.length].
    + split; [intros _; left; split; [reflexivity|lia] | eauto].
    + split; [intros _; left; split; [reflexivity|lia] | eauto].
    + split.
      * intros [reason H]. destruct (apiDenied cfg); discriminate H.
      * intros [[_ H]|[H _]]; [lia|discriminate H].
  - destruct (String.eqb p0 "users") eqn:U.
    + apply String.eqb_eq in U. subst p0.
      destruct l as [|p1 l]; cbn [index nth_error bind List.length].
      * split; [intros _; right; split; [reflexivity|lia] | eauto].
      * split.
        -- intros [reason H]. destruct (apiDenied cfg); discriminate H.
        -- intros [[H _]|[_ H]]; [discriminate H|lia].
    + cbn [bind]. split.
      * intros [reason H]. destruct (apiDenied cfg); discriminate H.
      * apply String.eqb_neq in R, U. intros [[H _]|[H _]]; contradiction.
Qed.

(** X3.  Under [https://api.github.com/], when the first segment is
    neither [repos] nor [users], owner and repository stay empty and the
    gate alone decides between status 403 and kind api. *)
Theorem Matcher_api_other (first rest : string) (cfg : Config) :
  strings.free_of slash first = true ->
  first <> "repos" -> first <> "users" ->
  rest = "" \/ strings.HasPrefix rest "/" = true ->
  Matcher ("https://api.github.com/" ++ first ++ rest) cfg
  = if apiDenied cfg
    then Done (fail 403
      "AuthHeader Unavailable, Need to open header auth to enable api proxy")
    else Done (ok "" "" "api").
Proof.
  intros Hf Hr Hu Hrest. rewrite Matcher_api_parts. cbv zeta.
  destruct (Split_segment first rest Hf Hrest) as [more ->].
  cbn [index nth_error bind].
  apply String.eqb_neq in Hr, Hu. rewrite Hr, Hu. reflexivity.
Qed.

Lemma Matcher_api_other_witness :
  Matcher "https://api.github.com/rate_limit" (authConfig true "header" false)
  = Done (ok "" "" "api").
Proof.
  refine (Matcher_api_other "rate_limit" "" (authConfig true "header" false)
            eq_refl _ _ (or_introl eq_refl)); discriminate.
Defined.

(** X4.  On [https://api.github.com/repos/<owner>/<repo>...] the gate
    alone decides: status 403 when it denies, else owner, repository and
    kind api. *)
Theorem Matcher_api_repos_gate (owner repo rest : string) (cfg : Config) :
  strings.free_of slash owner = true ->
  strings.free_of slash repo = true ->
  rest = "" \/ strings.HasPrefix rest "/" = true ->
  Matcher ("https://api.github.com/repos/" ++ owner ++ "/" ++ repo ++ rest) cfg
  = if negb (ForceAllowApi (Auth cfg))
       && (negb (String.eqb (Method (Auth cfg)) "header")
           || negb (Enabled (Auth cfg)))
    then Done (fail 403
      "AuthHeader Unavailable, Need to open header auth to enable api proxy")
    else Done (ok owner repo "api").
Proof. apply Matcher_api_repos. Qed.

Lemma Matcher_api_repos_gate_witness :
  Matcher "https://api.github.com/repos/acme/widget/issues"
          (authConfig false "header" false)
  = Done (fail 403
      "AuthHeader Unavailable, Need to open header auth to enable api proxy").
Proof.
  exact (Matcher_api_repos_gate "acme" "widget" "/issues"
           (authConfig false "header" false) eq_refl eq_refl
           (or_intror eq_refl)).
Defined.

(** X5.  On [https://api.github.com/users/<owner>...] the gate alone
    decides: status 403 when it denies, else the owner, an empty
    repository and kind api. *)
Theorem Matcher_api_users_gate (owner rest : string) (cfg : Config) :
  strings.free_of slash owner = true ->
  rest = "" \/ strings.HasPrefix rest "/" = true ->
  Matcher ("https://api.github.com/users/" ++ owner ++ rest) cfg
  = if negb (ForceAllowApi (Auth cfg))
       && (negb (String.eqb (Method (Auth cfg)) "header")
           || negb (Enabled (Auth cfg)))
    then Done (fail 403
      "AuthHeader Unavailable, Need to open header auth to enable api proxy")
    else Done (ok owner "" "api").
Proof. apply Matcher_api_users. Qed.

Lemma Matcher_api_users_gate_witness :
  Matcher "https://api.github.com/users/acme" (authConfig false "" true)
  = Done (ok "acme" "" "api").
Proof.
  exact (Matcher_api_users_gate "acme" "" (authConfig false "" true)
           eq_refl (or_introl eq_refl)).
Defined.

(** The branches for github.com, raw and gist on the segments. *)
Lemma Matcher_github_parts (rest : string) (cfg : Config) :
  Matcher ("https://github.com" ++ rest) cfg
  = let parts :=
      strings.Split (if strings.HasPrefix rest "/"
                     then strings.TrimPrefix rest "/" else rest) slash in
    if (List.length parts <=? 2)%nat then
      Done (fail 400
        "Not enough parts in path after matching 'https://github.com*'")
    else
      match thirdSegment (nth 2 parts "") with
      | Some m => Done (ok (nth 0 parts "") (nth 1 parts "") m)
      | None =>
          Done (fail 400
            "Url Matched 'https://github.com*', but didn't match the next matcher")
      end.
Proof.
  unfold Matcher. rewrite HasPrefix_app, TrimPrefix_app. cbv zeta.
  generalize (strings.Split (if strings.HasPrefix rest "/"
                             then strings.TrimPrefix rest "/" else rest) slash).
  intros parts. destruct (List.length parts <=? 2)%nat eqn:L; [reflexivity|].
  destruct parts as [|p0 [|p1 [|p2 l]]]; try discriminate L.
  reflexivity.
Qed.

Lemma Matcher_shape_github (rest : string) (cfg : Config) (r : MatcherResult) :
  Matcher ("https://github.com" ++ rest) cfg = Done r ->
  (failure r = None /\ In (matcher r) kinds)
  \/ (badRequest r /\ user r = "" /\ repo r = "" /\ matcher r = "").
Proof.
  rewrite Matcher_github_parts. cbv zeta.
  destruct (_ <=? 2)%nat.
  - intros [= <-]. right. split; [eexists; split; reflexivity|]. now repeat split.
  - destruct (thirdSegment _) as [m|] eqn:T; intros [= <-].
    + left. split; [reflexivity|]. apply (thirdSegment_kinds _ _ T).
    + right. split; [eexists; split; reflexivity|]. now repeat split.
Qed.

Lemma Matcher_shape_host (rawPath kind : string) (cfg : Config)
      (r : MatcherResult) (long : string) (repoAt : option nat) :
  In kind kinds ->
  (let parts := strings.Split (strings.TrimPrefix rawPath "https://") slash in
   if (List.length parts <=? 3)%nat then Done (fail 400 long)
   else
     user <- index parts 1 ;;
     repo <- match repoAt with
             | Some i => index parts i
             | None => Done ""
             end ;;
     Done (ok user repo kind)) = Done r ->
  (failure r = None /\ In (matcher r) kinds)
  \/ (badRequest r /\ user r = "" /\ repo r = "" /\ matcher r = "").
Proof.
  intros Hk. cbv zeta.
  generalize (strings.Split (strings.TrimPrefix rawPath "https://") slash).
  intros parts. destruct (List.length parts <=? 3)%nat.
  - intros [= <-]. right. split; [eexists; split; reflexivity|]. now repeat split.
  - destruct (index parts 1); cbn [bind]; [|discriminate].
    destruct repoAt as [i|]; [destruct (index parts i)|]; cbn [bind];
      try discriminate; intros [= <-]; left; split; auto.
Qed.

(** X6.  Whenever [Matcher] returns, it returns either no error and one
    of the six kinds (never an empty kind), or an error of status 400,
    403 or 404 with owner, repository and kind empty. *)
Theorem Matcher_result_shape
  (rawPath : string) (cfg : Config) (r : MatcherResult) :
  Matcher rawPath cfg = Done r ->
  (failure r = None /\ In (matcher r) kinds)
  \/ (exists e, failure r = Some e
                /\ In (httpStatus e) [400; 403; 404]%Z
                /\ user r = "" /\ repo r = "" /\ matcher r = "").
Proof.
  assert (forall r',
             (failure r' = None /\ In (matcher r') kinds)
             \/ (badRequest r' /\ user r' = "" /\ repo r' = "" /\ matcher r' = "")
             -> (failure r' = None /\ In (matcher r') kinds)
                \/ (exists e, failure r' = Some e
                              /\ In (httpStatus e) [400; 403; 404]%Z
                              /\ user r' = "" /\ repo r' = ""
                              /\ matcher r' = "")) as Weaken.
  { intros r' [H|[(e & He & Hs) H]]; [now left|right].
    exists e. split; [assumption|]. split; [rewrite Hs; simpl; tauto|exact H]. }
  destruct (strings.HasPrefix rawPath "https://github.com") eqn:G.
  { apply HasPrefix_inv in G as [rest ->]. intros H.
    apply Weaken. eapply Matcher_shape_github; eassumption. }
  unfold Matcher. rewrite G.
  destruct (strings.HasPrefix rawPath "https://raw") eqn:R.
  { intros H. apply Weaken.
    eapply (Matcher_shape_host rawPath "raw" cfg r _ (Some 2));
      [simpl; tauto|exact H]. }
  destruct (strings.HasPrefix rawPath "https://gist") eqn:Gi.
  { intros H. apply Weaken.
    eapply (Matcher_shape_host rawPath "gist" cfg r _ None);
      [simpl; tauto|exact H]. }
  destruct (strings.HasPrefix rawPath "https://api.github.com/") eqn:A.
  - cbv zeta.
    generalize (strings.Split
                  (strings.TrimPrefix rawPath "https://api.github.com/") slash).
    intros parts.
    destruct (index parts 0) as [p0|]; cbn [bind]; [|discriminate].
    destruct (if String.eqb p0 "repos" then _ else _) as [ur|];
      cbn [bind]; [|discriminate].
    destruct (if String.eqb p0 "users" then _ else _) as [ur'|];
      cbn [bind]; [|discriminate].
    destruct (_ && _); intros [= <-].
    + right. eexists. split; [reflexivity|]. simpl. tauto.
    + left. simpl. tauto.
  - intros [= <-]. right. eexists. split; [reflexivity|]. simpl. tauto.
Qed.

Lemma Matcher_result_shape_witness :
  (failure (ok "acme" "widget" "blob") = None
   /\ In (matcher (ok "acme" "widget" "blob")) kinds)
  \/ (exists e, failure (ok "acme" "widget" "blob") = Some e
                /\ In (httpStatus e) [400; 403; 404]%Z
                /\ user (ok "acme" "widget" "blob") = ""
                /\ repo (ok "acme" "widget" "blob") = ""
                /\ matcher (ok "acme" "widget" "blob") = "").
Proof.
  exact (Matcher_result_shape "https://github.com/acme/widget/blob/main/a.go"
           (authConfig false "" false) (ok "acme" "widget" "blob") eq_refl).
Defined.

(** X7.  The configuration matters to the api branch only: on a path
    that does not start with [https://api.github.com/], [Matcher] gives
    the same result under any two configurations. *)
Theorem Matcher_config_only_api (rawPath : string) (cfg cfg' : Config) :
  strings.HasPrefix rawPath "https://api.github.com/" = false ->
  Matcher rawPath cfg = Matcher rawPath cfg'.
Proof. intros H. unfold Matcher. rewrite H. reflexivity. Qed.

Lemma Matcher_config_only_api_witness :
  Matcher "https://github.com/acme/widget/raw/main/x"
          (authConfig false "" false)
  = Matcher "https://github.com/acme/widget/raw/main/x"
            (authConfig true "header" true).
Proof.
  exact (Matcher_config_only_api "https://github.com/acme/widget/raw/main/x"
           (authConfig false "" false) (authConfig true "header" true)
           eq_refl).
Defined.

(** X8.  A path that does not start with [https://] (a plain [http://]
    url, a relative path, the empty string) matches no branch and gets
    status 404. *)
Theorem Matcher_not_https (rawPath : string) (cfg : Config) :
  strings.HasPrefix rawPath "https://" = false ->
  Matcher rawPath cfg = Done (fail 404 "Didn't match any matcher").
Proof.
  intros H. unfold Matcher.
  pose proof (HasPrefix_longer rawPath "https://" "github.com" H) as H1.
  pose proof (HasPrefix_longer rawPath "https://" "raw" H) as H2.
  pose proof (HasPrefix_longer rawPath "https://" "gist" H) as H3.
  pose proof (HasPrefix_longer rawPath "https://" "api.github.com/" H) as H4.
  cbn [append] in H1, H2, H3, H4. rewrite H1, H2, H3, H4.
  reflexivity.
Qed.

Lemma Matcher_not_https_witness :
  Matcher "http://github.com/acme/widget/releases" (authConfig false "" false)
  = Done (fail 404 "Didn't match any matcher").
Proof.
  exact (Matcher_not_https "http://github.com/acme/widget/releases"
           (authConfig false "" false) eq_refl).
Defined.

(** X9.  The github.com branch does not require a slash after the host:
    what follows [https://github.com] is split into segments whether or
    not it starts with a slash, so [https://github.comX/r/releases] is
    classified like [https://github.com/X/r/releases]. *)
Theorem Matcher_github_slash_optional (x : string) (cfg : Config) :
  strings.HasPrefix x "/" = false ->
  Matcher ("https://github.com" ++ x) cfg
  = Matcher ("https://github.com/" ++ x) cfg.
Proof.
  intros H.
  change ("https://github.com/" ++ x) with ("https://github.com" ++ "/" ++ x).
  rewrite !Matcher_github_parts. cbv zeta. rewrite H.
  change (strings.HasPrefix ("/" ++ x) "/") with true. cbv iota.
  now rewrite (TrimPrefix_app "/" x).
Qed.

Lemma Matcher_github_slash_optional_witness :
  Matcher "https://github.com.example.org/widget/releases/v1"
          (authConfig false "" false)
  = Done (ok ".example.org" "widget" "releases").
Proof.
  exact (Matcher_github_slash_optional ".example.org/widget/releases/v1"
           (authConfig false "" false) eq_refl).
Defined.

Lemma free_of_app (sep : ascii) (a b : string) :
  strings.free_of sep (a ++ b)
  = strings.free_of sep a && strings.free_of sep b.
Proof.
  induction a as [|c a IH]; cbn [append strings.free_of]; [reflexivity|].
  now rewrite IH, andb_assoc.
Qed.

Lemma Split_four (a b c rest : string) :
  strings.free_of slash a = true ->
  strings.free_of slash b = true ->
  strings.free_of slash c = true ->
  strings.Split (a ++ "/" ++ b ++ "/" ++ c ++ "/" ++ rest) slash
  = a :: b :: c :: strings.Split rest slash.
Proof.
  intros Ha Hb Hc.
  change (a ++ "/" ++ b ++ "/" ++ c ++ "/" ++ rest)
    with (a ++ String slash (b ++ String slash (c ++ String slash rest))).
  now rewrite !Split_app.
Qed.

Lemma Split_three (a b c : string) :
  strings.free_of slash a = true ->
  strings.free_of slash b = true ->
  strings.free_of slash c = true ->
  strings.Split (a ++ "/" ++ b ++ "/" ++ c) slash = [a; b; c].
Proof.
  intros Ha Hb Hc.
  change (a ++ "/" ++ b ++ "/" ++ c)
    with (a ++ String slash (b ++ String slash c)).
  now rewrite !Split_app, Split_free.
Qed.

(** X10.  The raw branch: [https://raw<host>/<owner>/<repo>/<more>] is
    classified as kind raw with the second and third segments as owner
    and repository, whatever the host after [raw]; with nothing behind
    the repository the path has too few parts and gets status 400. *)
Theorem Matcher_raw (host owner repo more : string) (cfg : Config) :
  strings.free_of slash host = true ->
  strings.free_of slash owner = true ->
  strings.free_of slash repo = true ->
  Matcher ("https://raw" ++ host ++ "/" ++ owner ++ "/" ++ repo ++ "/" ++ more)
          cfg
  = Done (ok owner repo "raw")
  /\ badRequest_of
       (Matcher ("https://raw" ++ host ++ "/" ++ owner ++ "/" ++ repo) cfg).
Proof.
  intros Hh Ho Hr.
  assert (strings.free_of slash ("raw" ++ host) = true) as Hh'
      by (now rewrite free_of_app, Hh).
  split.
  - change ("https://raw" ++ host ++ "/" ++ owner ++ "/" ++ repo ++ "/" ++ more)
      with ("https://" ++ ("raw" ++ host) ++ "/" ++ owner ++ "/" ++ repo
              ++ "/" ++ more).
    unfold Matcher.
    replace (strings.HasPrefix _ "https://github.com") with false by reflexivity.
    replace (strings.HasPrefix _ "https://raw") with true by reflexivity.
    rewrite TrimPrefix_app, Split_four by assumption.
    pose proof (Split_nonempty more slash) as Hne.
    destruct (strings.Split more slash); [contradiction|reflexivity].
  - change ("https://raw" ++ host ++ "/" ++ owner ++ "/" ++ repo)
      with ("https://" ++ ("raw" ++ host) ++ "/" ++ owner ++ "/" ++ repo).
    unfold Matcher.
    replace (strings.HasPrefix _ "https://github.com") with false by reflexivity.
    replace (strings.HasPrefix _ "https://raw") with true by reflexivity.
    rewrite TrimPrefix_app, Split_three by assumption.
    eexists. split; reflexivity.
Qed.

Lemma Matcher_raw_witness :
  Matcher "https://raw.githubusercontent.com/acme/widget/main/install.sh"
          (authConfig false "" false)
  = Done (ok "acme" "widget" "raw").
Proof.
  exact (proj1 (Matcher_raw ".githubusercontent.com" "acme" "widget"
                  "main/install.sh" (authConfig false "" false)
                  eq_refl eq_refl eq_refl)).
Defined.

(** X11.  The gist branch: [https://gist<host>/<owner>/<id>/<more>] is
    classified as kind gist with the second segment as owner and an empty
    repository; the address of a gist itself,
    [https://gist<host>/<owner>/<id>], has only three parts and gets
    status 400. *)
Theorem Matcher_gist (host owner id more : string) (cfg : Config) :
  strings.free_of slash host = true ->
  strings.free_of slash owner = true ->
  strings.free_of slash id = true ->
  Matcher ("https://gist" ++ host ++ "/" ++ owner ++ "/" ++ id ++ "/" ++ more)
          cfg
  = Done (ok owner "" "gist")
  /\ badRequest_of
       (Matcher ("https://gist" ++ host ++ "/" ++ owner ++ "/" ++ id) cfg).
Proof.
  intros Hh Ho Hi.
  assert (strings.free_of slash ("gist" ++ host) = true) as Hh'
      by (now rewrite free_of_app, Hh).
  split.
  - change ("https://gist" ++ host ++ "/" ++ owner ++ "/" ++ id ++ "/" ++ more)
      with ("https://" ++ ("gist" ++ host) ++ "/" ++ owner ++ "/" ++ id
              ++ "/" ++ more).
    unfold Matcher.
    replace (strings.HasPrefix _ "https://github.com") with false by reflexivity.
    replace (strings.HasPrefix _ "https://raw") with false by reflexivity.
    replace (strings.HasPrefix _ "https://gist") with true by reflexivity.
    rewrite TrimPrefix_app, Split_four by assumption.
    pose proof (Split_nonempty more slash) as Hne.
    destruct (strings.Split more slash); [contradiction|reflexivity].
  - change ("https://gist" ++ host ++ "/" ++ owner ++ "/" ++ id)
      with ("https://" ++ ("gist" ++ host) ++ "/" ++ owner ++ "/" ++ id).
    unfold Matcher.
    replace (strings.HasPrefix _ "https://github.com") with false by reflexivity.
    replace (strings.HasPrefix _ "https://raw") with false by reflexivity.
    replace (strings.HasPrefix _ "https://gist") with true by reflexivity.
    rewrite TrimPrefix_app, Split_three by assumption.
    eexists. split; reflexivity.
Qed.

Lemma Matcher_gist_witness :
  badRequest_of
    (Matcher "https://gist.github.com/acme/0123456789abcdef"
             (authConfig false "" false)).
Proof.
  exact (proj2 (Matcher_gist ".github.com" "acme" "0123456789abcdef" ""
                  (authConfig false "" false) eq_refl eq_refl eq_refl)).
Defined.

(* ================================================================== *)
(** * Further properties of the gate and the rewriter *)

Lemma gated_branch (url : string) :
  existsb (strings.HasPrefix url) gatedPrefixes = true ->
  strings.HasPrefix url "https://github.com" = true
  \/ (strings.HasPrefix url "https://github.com" = false
      /\ strings.HasPrefix url "https://raw" = true)
  \/ (strings.HasPrefix url "https://github.com" = false
      /\ strings.HasPrefix url "https://raw" = false
      /\ strings.HasPrefix url "https://gist" = true).
Proof.
  unfold gatedPrefixes, existsb. intros H.
  destruct (strings.HasPrefix url "https://github.com") eqn:G; [now left|].
  right.
  destruct (strings.HasPrefix url "https://raw") eqn:R; [now left|].
  right. split; [reflexivity|]. split; [reflexivity|].
  destruct (strings.HasPrefix url "https://gist") eqn:Gi; [reflexivity|].
  pose proof (HasPrefix_longer url "https://raw" ".githubusercontent.com" R)
    as R1.
  pose proof (HasPrefix_longer url "https://raw" ".github.com" R) as R2.
  pose proof (HasPrefix_longer url "https://gist" ".githubusercontent.com" Gi)
    as G1.
  pose proof (HasPrefix_longer url "https://gist" ".github.com" Gi) as G2.
  cbn [append] in R1, R2, G1, G2.
  rewrite R1, R2, G1, G2 in H. discriminate H.
Qed.

(** X12.  Every url that the gate accepts through one of its five fixed
    prefixes is one that [Matcher] can take: it returns (no panic), and
    with a kind or with status 400, never with status 403 or 404. *)
Theorem gated_url_is_classified (url : string) (cfg : Config) :
  existsb (strings.HasPrefix url) gatedPrefixes = true ->
  exists r, Matcher url cfg = Done r
            /\ ((failure r = None /\ In (matcher r) kinds) \/ badRequest r).
Proof.
  intros H.
  assert (forall r,
             (failure r = None /\ In (matcher r) kinds)
             \/ (badRequest r /\ user r = "" /\ repo r = "" /\ matcher r = "")
             -> (failure r = None /\ In (matcher r) kinds) \/ badRequest r)
    as Weaken by (intros r [?|[? _]]; auto).
  assert (strings.HasPrefix url "https://api.github.com/" = false) as A.
  { destruct (gated_branch url H) as [G|[[_ G]|[_ [_ G]]]];
      apply HasPrefix_inv in G as [rest ->]; reflexivity. }
  destruct (Matcher_returns_outside_api url cfg A) as [r Hr].
  exists r. split; [assumption|]. apply Weaken.
  destruct (gated_branch url H) as [G|[[G R]|[G [R Gi]]]].
  - apply HasPrefix_inv in G as [rest ->].
    eapply Matcher_shape_github; eassumption.
  - unfold Matcher in Hr. rewrite G, R in Hr.
    eapply (Matcher_shape_host url "raw" cfg r _ (Some 2));
      [simpl; tauto|exact Hr].
  - unfold Matcher in Hr. rewrite G, R, Gi in Hr.
    eapply (Matcher_shape_host url "gist" cfg r _ None);
      [simpl; tauto|exact Hr].
Qed.

Lemma gated_url_is_classified_witness :
  exists r, Matcher "https://gist.githubusercontent.com/acme/1/raw/x.sh"
                    (authConfig false "" false) = Done r
            /\ ((failure r = None /\ In (matcher r) kinds) \/ badRequest r).
Proof.
  exact (gated_url_is_classified
           "https://gist.githubusercontent.com/acme/1/raw/x.sh"
           (authConfig false "" false) eq_refl).
Defined.

(** X13.  The sixth prefix of the gate lacks the slash that the api
    branch of [Matcher] asks for: with [RewriteAPI] set, a url that
    continues [https://api.github.com] with anything but a slash is
    accepted by the gate, and [Matcher] answers it with status 404. *)
Theorem api_gate_wider_than_Matcher (x : string) (cfg : Config) :
  RewriteAPI (Shell cfg) = true ->
  strings.HasPrefix x "/" = false ->
  EditorMatcher ("https://api.github.com" ++ x) cfg = (true, None)
  /\ Matcher ("https://api.github.com" ++ x) cfg
     = Done (fail 404 "Didn't match any matcher").
Proof.
  intros Hflag Hx. split.
  - unfold EditorMatcher. rewrite Hflag.
    repeat match goal with
    | |- context [strings.HasPrefix ("https://api.github.com" ++ x) ?p] =>
        replace (strings.HasPrefix ("https://api.github.com" ++ x) p)
          with false by reflexivity
    end.
    now rewrite HasPrefix_app.
  - unfold Matcher.
    replace (strings.HasPrefix _ "https://github.com") with false by reflexivity.
    replace (strings.HasPrefix _ "https://raw") with false by reflexivity.
    replace (strings.HasPrefix _ "https://gist") with false by reflexivity.
    change "https://api.github.com/" with ("https://api.github.com" ++ "/").
    now rewrite HasPrefix_app_both, Hx.
Qed.

Lemma api_gate_wider_than_Matcher_witness :
  EditorMatcher "https://api.github.com"
    {| Auth := Auth (authConfig false "" true);
       Shell := {| RewriteAPI := true |} |} = (true, None)
  /\ Matcher "https://api.github.com"
       {| Auth := Auth (authConfig false "" true);
          Shell := {| RewriteAPI := true |} |}
     = Done (fail 404 "Didn't match any matcher").
Proof.
  exact (api_gate_wider_than_Matcher ""
           {| Auth := Auth (authConfig false "" true);
              Shell := {| RewriteAPI := true |} |} eq_refl eq_refl).
Defined.

Lemma eligible_https (url : string) (api : bool) :
  isEligibleForRewrite url api = true -> exists rest, url = "https://" ++ rest.
Proof.
  unfold isEligibleForRewrite, gatedPrefixes, existsb. intros H.
  repeat (apply orb_prop in H as [H|H]); try discriminate;
    try (apply andb_prop in H as [_ H]);
    apply HasPrefix_inv in H as [r ->]; eexists; reflexivity.
Qed.

(** X14.  Round trip of the rewriter: when [modifyURL] rewrites a url,
    removing [https://<host>/] from the result and putting [https://] back
    gives the original url, so that [Matcher] classifies it as it
    classifies the original. *)
Theorem modifyURL_round_trip (url host : string) (cfg : Config) :
  fst (EditorMatcher url cfg) = true ->
  let back :=
    "https://"
    ++ strings.TrimPrefix (modifyURL url host cfg) ("https://" ++ host ++ "/") in
  back = url /\ Matcher back cfg = Matcher url cfg.
Proof.
  intros H. rewrite EditorMatcher_gate in H. cbn [fst] in H.
  rewrite modifyURL_is_rewrite_aux. unfold rewrite. rewrite H.
  destruct (eligible_https url _ H) as [rest ->].
  change (stripScheme ("https://" ++ rest)) with rest.
  cbv zeta.
  replace ("https://" ++ host ++ "/" ++ rest)
    with (("https://" ++ host ++ "/") ++ rest)
    by (cbn [append]; now rewrite append_assoc).
  rewrite TrimPrefix_app. split; reflexivity.
Qed.

Lemma modifyURL_round_trip_witness :
  "https://"
  ++ strings.TrimPrefix
       (modifyURL "https://github.com/acme/widget/raw/main/a.sh" "px.example"
          (authConfig false "" false))
       ("https://" ++ "px.example" ++ "/")
  = "https://github.com/acme/widget/raw/main/a.sh".
Proof.
  exact (proj1 (modifyURL_round_trip
                  "https://github.com/acme/widget/raw/main/a.sh" "px.example"
                  (authConfig false "" false) eq_refl)).
Defined.

Lemma modifyURL_keeps_non_https (url host : string) (cfg : Config) :
  strings.HasPrefix url "https://" = false ->
  modifyURL url host cfg = url.
Proof.
  intros H. rewrite modifyURL_is_rewrite_aux. unfold rewrite.
  destruct (isEligibleForRewrite url (RewriteAPI (Shell cfg))) eqn:E;
    [|reflexivity].
  destruct (eligible_https url _ E) as [rest ->].
  rewrite HasPrefix_app in H. discriminate H.
Qed.

(** X15.  A url that does not start with [https://] is never rewritten;
    in particular no [http://] url is, so the removal of [http://] in
    [modifyURL] never has anything to remove. *)
Theorem modifyURL_not_https (url host : string) (cfg : Config) :
  strings.HasPrefix url "https://" = false ->
  modifyURL url host cfg = url.
Proof. apply modifyURL_keeps_non_https. Qed.

Lemma modifyURL_not_https_witness :
  modifyURL "http://github.com/acme/widget" "px.example"
            (authConfig false "" false)
  = "http://github.com/acme/widget".
Proof.
  exact (modifyURL_not_https "http://github.com/acme/widget" "px.example"
           (authConfig false "" false) eq_refl).
Defined.

(** X16.  Links to the api host are rewritten only when [RewriteAPI] is
    set: a url that starts with [https://api.github.com] becomes
    [https://<host>/api.github.com...] with the flag and stays as it is
    without. *)
Theorem modifyURL_api (rest host : string) (cfg : Config) :
  modifyURL ("https://api.github.com" ++ rest) host cfg
  = if RewriteAPI (Shell cfg)
    then "https://" ++ host ++ "/api.github.com" ++ rest
    else "https://api.github.com" ++ rest.
Proof.
  unfold modifyURL, EditorMatcher.
  repeat match goal with
  | |- context [strings.HasPrefix ("https://api.github.com" ++ rest) ?p] =>
      lazymatch p with
      | "https://api.github.com" => fail
      | _ => replace (strings.HasPrefix ("https://api.github.com" ++ rest) p)
               with false by reflexivity
      end
  end.
  rewrite HasPrefix_app.
  destruct (RewriteAPI (Shell cfg)); [|reflexivity].
  change ("https://api.github.com" ++ rest)
    with ("https://" ++ "api.github.com" ++ rest).
  rewrite TrimPrefix_app.
  replace (strings.TrimPrefix ("api.github.com" ++ rest) "http://")
    with ("api.github.com" ++ rest) by reflexivity.
  reflexivity.
Qed.

(** X17.  A rewritten url is longer than the original by the length of
    the host and one byte: the scheme is kept, and [<host>/] is put in. *)
Theorem modifyURL_length (url host : string) (cfg : Config) :
  fst (EditorMatcher url cfg) = true ->
  String.length (modifyURL url host cfg)
  = String.length url + String.length host + 1.
Proof.
  intros H. rewrite EditorMatcher_gate in H. cbn [fst] in H.
  rewrite modifyURL_is_rewrite_aux. unfold rewrite. rewrite H.
  destruct (eligible_https url _ H) as [rest ->].
  change (stripScheme ("https://" ++ rest)) with rest.
  rewrite !length_append. cbn [String.length]. lia.
Qed.

Lemma modifyURL_length_witness :
  String.length (modifyURL "https://github.com/a/b" "px.example"
                   (authConfig false "" false))
  = String.length "https://github.com/a/b" + String.length "px.example" + 1.
Proof.
  exact (modifyURL_length "https://github.com/a/b" "px.example"
           (authConfig false "" false) eq_refl).
Defined.

(* ================================================================== *)
(** * [MatcherShell], [matchString] and [extractParts] *)

Lemma drop_length_app (p s : string) :
  strings.drop (String.length (p ++ s) - String.length s) (p ++ s) = s.
Proof.
  rewrite length_append, Nat.add_sub. apply drop_app.
Qed.

(** X18.  [MatcherShell] holds exactly of the paths that end in [.sh];
    the test is on the raw path, so a query string behind the file name
    defeats it. *)
Theorem MatcherShell_iff (rawPath : string) :
  MatcherShell rawPath = true <-> exists p, rawPath = p ++ ".sh".
Proof.
  unfold MatcherShell, strings.HasSuffix. split.
  - intros H. apply andb_prop in H as [_ H]. apply String.eqb_eq in H.
    exists (regexp.take (String.length rawPath - String.length ".sh") rawPath).
    pose proof (take_drop (String.length rawPath - String.length ".sh")
                  rawPath) as TD.
    rewrite H in TD. now symmetry.
  - intros [p ->]. rewrite drop_length_app, String.eqb_refl, andb_true_r.
    apply Nat.leb_le. rewrite length_append. lia.
Qed.

Lemma hasKey_In (m : keySet) (k : string) : hasKey m k = true <-> In k m.
Proof.
  unfold hasKey. rewrite existsb_exists. split.
  - intros [x [Hx E]]. apply String.eqb_eq in E. now subst x.
  - intros H. exists k. split; [assumption|apply String.eqb_refl].
Qed.

Lemma putKey_In (m : keySet) (k x : string) :
  In x (putKey m k) <-> x = k \/ In x m.
Proof.
  unfold putKey. destruct (hasKey m k) eqn:E.
  - apply hasKey_In in E. split; [now right|].
    intros [->|H]; assumption.
  - simpl. split; intros [H|H]; auto.
Qed.

Lemma fold_putKey_In (l : list string) (m : keySet) (x : string) :
  In x (fold_left putKey l m) <-> In x l \/ In x m.
Proof.
  revert m; induction l as [|k l IH]; intros m; simpl.
  - tauto.
  - rewrite IH, putKey_In. intuition congruence.
Qed.

(** X19.  [matchString] is membership: it holds exactly when the target
    is one of the strings, whatever their order and repetitions; for
    [matchedMatchers] these are blob, raw and gist. *)
Theorem matchString_iff (target : string) (stringsToMatch : list string) :
  (matchString target stringsToMatch = true <-> In target stringsToMatch)
  /\ (matchString target matchedMatchers = true
      <-> target = "blob" \/ target = "raw" \/ target = "gist").
Proof.
  assert (forall l, matchString target l = true <-> In target l) as G.
  { intros l. unfold matchString. rewrite hasKey_In, fold_putKey_In.
    simpl. tauto. }
  split; [apply G|]. rewrite G. unfold matchedMatchers. simpl.
  intuition congruence.
Qed.

Lemma Split_length (s : string) (sep : ascii) :
  List.length (strings.Split s sep) = S (count sep s).
Proof.
  induction s as [|c s IH]; [reflexivity|].
  cbn [strings.Split count]. destruct (Ascii.eqb c sep).
  - cbn [List.length]. now rewrite IH.
  - destruct (strings.Split s sep) as [|p ps]; [discriminate IH|].
    cbn [List.length] in *. exact IH.
Qed.

Lemma Join_Split (s : string) :
  strings.Join (strings.Split s slash) "/" = s.
Proof.
  induction s as [|c s IH]; [reflexivity|].
  cbn [strings.Split]. pose proof (Split_nonempty s slash) as Hne.
  destruct (Ascii.eqb c slash) eqn:E.
  - apply Ascii.eqb_eq in E. subst c.
    destruct (strings.Split s slash) as [|p ps]; [contradiction|].
    rewrite <- IH. reflexivity.
  - destruct (strings.Split s slash) as [|p ps]; [contradiction|].
    rewrite <- IH. destruct ps; reflexivity.
Qed.

Section ExtractPartsFacts.

Variable Values : Type.
Variable Parse : string -> error + (string * Values).

(** X20.  [extractParts] never panics.  It fails with the error of
  [url.Parse], or with its own error when the path has fewer than two
  slashes, and then returns nothing else; otherwise it returns no error
  and the query of the parsed url. *)
Theorem extractParts_total (rawURL : string) :
exists p,
  extractParts Values Parse rawURL = Done p
  /\ match Parse rawURL with
     | inl e => p = noParts Values e
     | inr (Path, Query) =>
         if (count slash Path <? 2)%nat
         then p = noParts Values (Failure "URL path is too short")
         else partsErr p = None /\ queryParams p = Some Query
     end.
Proof.
unfold extractParts. destruct (Parse rawURL) as [e|[Path Query]].
- eexists. split; reflexivity.
- pose proof (Split_length Path slash) as L.
  destruct (strings.Split Path slash) as [|p0 [|p1 [|p2 l]]];
    cbn [List.length] in L;
    destruct (count slash Path) as [|[|n]]; try discriminate L;
    cbn [List.length Nat.ltb Nat.leb index nth_error bind];
    eexists; (split; [reflexivity|]); try reflexivity.
  split; reflexivity.
Qed.

(** X21.  On a path [/<owner>/<name><more>], where [more] is empty or
  starts with a slash, [extractParts] returns [/<owner>], [/<name>] and
  [more]: the three parts put together give the path again, except
  that a path ending right behind [/<owner>/<name>/] loses that last
  slash. *)
Theorem extractParts_round_trip
(rawURL owner name more : string) (Query : Values) :
strings.free_of slash owner = true ->
strings.free_of slash name = true ->
more = "" \/ strings.HasPrefix more "/" = true ->
Parse rawURL = inr ("/" ++ owner ++ "/" ++ name ++ more, Query) ->
extractParts Values Parse rawURL
= Done {| repoOwner := "/" ++ owner;
          repoName := "/" ++ name;
          remainingPath := if String.eqb more "/" then "" else more;
          queryParams := Some Query;
          partsErr := None |}.
Proof.
intros Ho Hn Hmore HP. unfold extractParts. rewrite HP.
destruct Hmore as [->|Hm].
- rewrite append_empty.
  change ("/" ++ owner ++ "/" ++ name) with ("" ++ "/" ++ owner ++ "/" ++ name).
  rewrite Split_three by (assumption || reflexivity). reflexivity.
- apply HasPrefix_inv in Hm as [m ->].
  change ("/" ++ owner ++ "/" ++ name ++ "/" ++ m)
    with ("" ++ "/" ++ owner ++ "/" ++ name ++ "/" ++ m).
  rewrite Split_four by (assumption || reflexivity).
  pose proof (Split_nonempty m slash) as Hne.
  pose proof (Join_Split m) as J.
  destruct (strings.Split m slash) as [|q qs]; [contradiction|].
  cbn [List.length Nat.ltb Nat.leb index nth_error bind skipn].
  rewrite J. destruct m as [|c m]; reflexivity.
Qed.

End ExtractPartsFacts.

Lemma extractParts_round_trip_witness :
  extractParts unit pathOnly "/acme/widget.git/info/refs"
  = Done {| repoOwner := "/acme"; repoName := "/widget.git";
            remainingPath := "/info/refs";
            queryParams := Some tt; partsErr := None |}.
Proof.
  exact (extractParts_round_trip unit pathOnly "/acme/widget.git/info/refs"
           "acme" "widget.git" "/info/refs" tt eq_refl eq_refl
           (or_intror eq_refl) eq_refl).
Defined.

(* ================================================================== *)
(** * Further properties of the streaming transformer *)



Lemma wrap64_add (a b : Z) : wrap64 (wrap64 a + b) = wrap64 (a + b).
Proof.
  unfold wrap64. set (h := (2 ^ 63)%Z). set (m := (2 ^ 64)%Z).
  f_equal.
  replace ((a + h) mod m - h + b + h)%Z with ((a + h) mod m + b)%Z by ring.
  rewrite Zplus_mod_idemp_l. f_equal. ring.
Qed.

Lemma wrap64_small (z : Z) : (0 <= z < 2 ^ 63)%Z -> wrap64 z = z.
Proof.
  intros H. unfold wrap64. rewrite Z.mod_small; lia.
Qed.

Lemma concat_empty_cons (x : string) (xs : list string) :
  String.concat "" (x :: xs) = x ++ String.concat "" xs.
Proof.
  destruct xs; cbn [String.concat]; [now rewrite append_empty|reflexivity].
Qed.

Lemma rewritten_newline (host : string) (cfg : Config) (line text : string) :
  rewritten host cfg line (String newline text)
  = rewriteLine host cfg (line ++ String newline "")
    ++ rewritten host cfg "" text.
Proof.
  unfold rewritten. cbn [completeLines]. rewrite Ascii.eqb_refl.
  cbn [map]. apply concat_empty_cons.
Qed.

Lemma rewritten_other (host : string) (cfg : Config) (line text : string)
      (c : ascii) :
  Ascii.eqb c newline = false ->
  rewritten host cfg line (String c text)
  = rewritten host cfg (line ++ String c "") text.
Proof. intros H. unfold rewritten. cbn [completeLines]. now rewrite H. Qed.

Section Counter.

Variables (host : string) (cfg : Config).

Lemma forLoop_written (text line : string) (ending : error)
    (st : State pipeWriter) (total : Z) :
draining (fst st) -> written (snd st) = wrap64 total ->
written (snd (fst (forLoop pipeWriter host cfg line text ending st)))
= wrap64 (total
          + Z.of_nat (String.length (rewritten host cfg line text))).
Proof.
revert line st total; induction text as [|c text IH];
  intros line st total Hd Hw.
- cbn [forLoop]. unfold rewritten. cbn [completeLines map String.concat].
  rewrite Z.add_0_r.
  destruct ending; cbn [fst snd setErr returns written]; exact Hw.
- cbn [forLoop]. destruct (Ascii.eqb c newline) eqn:E.
  + apply Ascii.eqb_eq in E. subst c. rewrite rewritten_newline.
    destruct st as [b v]. unfold iteration.
    destruct (WriteString_draining b
                (rewriteLine host cfg (line ++ String newline "")) Hd)
      as (Hres & Hd' & _).
    unfold rewriteLine in Hres, Hd' |- *.
    destruct (bufio.WriteString pipeWriter b _) as [b' [n e]].
    cbn [fst snd] in *. injection Hres as -> ->.
    rewrite (IH "" _ (total + Z.of_nat (String.length
               (regexp.ReplaceAllStringFunc regexp.urlPattern
                  (line ++ String newline "")
                  (fun originalURL => modifyURL originalURL host cfg))))%Z).
    * f_equal. rewrite length_append, Nat2Z.inj_add. unfold rewriteLine. ring.
    * exact Hd'.
    * cbn [snd addWritten written]. rewrite Hw. apply wrap64_add.
  + rewrite (rewritten_other _ _ _ _ _ E). now apply IH.
Qed.

Lemma flushAfterLoop_written (w : WriterImpl) (st : State w) :
written (snd (flushAfterLoop w st)) = written (snd st).
Proof.
destruct st as [b v]. unfold flushAfterLoop.
destruct (bufio.Flush w b) as [b' [e|]]; [|reflexivity].
unfold setErrIfNil. cbn [snd]. now destruct (err (returns CallFlush e v)).
Qed.

Lemma closeWriters_written
    (w : WriterImpl) (close : option (wstate w -> wstate w * option error))
    (st : State w) :
written (snd (closeWriters w close st)) = written (snd st).
Proof.
destruct st as [b v]. unfold closeWriters.
assert (written (snd (closeGzipWriter w close (b, v))) = written v) as H1.
{ unfold closeGzipWriter. destruct close as [close|]; [|reflexivity].
  destruct (close (bufio.wr b)) as [g [e|]]; [|reflexivity].
  unfold setErrIfNil. cbn [snd].
  now destruct (err (logError _ e (returns CallGzipClose e v))). }
destruct (closeGzipWriter w close (b, v)) as [b1 v1]. cbn [snd] in *.
unfold flushDeferred.
destruct (bufio.Flush w b1) as [b2 [e|]]; [|assumption].
unfold setErrIfNil. cbn [snd].
now destruct (err (logError _ e (returns CallDeferredFlush e v1))).
Qed.

End Counter.

(** X23.  Without compression and with a consumer that drains the
    output, the counter [written] of the goroutine ends as the number of
    bytes delivered (as an [int64]): every byte that reaches the consumer
    has been counted, and none that does not. *)
Theorem processLinks_counts_the_output
  (gz : GzipModel) (started : nat) (input : ReadCloser)
  (compress host : string) (cfg : Config) :
  String.eqb compress "gzip" = false ->
  let r := processLinks gz Drains started input compress host cfg in
  let delivered := Z.of_nat (String.length (fst (drain (readerOut r)))) in
  written (vars r) = wrap64 delivered
  /\ ((delivered < 2 ^ 63)%Z -> written (vars r) = delivered).
Proof.
  intros Hc. cbv zeta.
  rewrite (processLinks_identity_output gz started input compress host cfg Hc).
  cbn [fst].
  set (delivered := Z.of_nat (String.length
                      (rewritten host cfg "" (bytes (stream input))))).
  assert (written (vars (processLinks gz Drains started input compress
                           host cfg)) = wrap64 delivered) as G.
  { unfold processLinks, goroutine. rewrite Hc. unfold copyLines.
    pose proof (forLoop_written host cfg (bytes (stream input)) ""
                  (ending (stream input))
                  (bufio.NewWriterSize pipeWriter (newPipe Drains), initial)
                  0%Z) as W.
    destruct (forLoop pipeWriter host cfg "" _ _ _) as [st broke].
    cbn [fst snd] in W.
    assert (written (snd (if broke then flushAfterLoop pipeWriter st else st))
            = written (snd st)) as F
        by (destruct broke; [apply flushAfterLoop_written|reflexivity]).
    pose proof (closeWriters_written pipeWriter None
                  (if broke then flushAfterLoop pipeWriter st else st)) as C.
    destruct (closeWriters pipeWriter None _) as [b2 v2].
    cbn [fst snd vars] in *.
    assert (written v2 = wrap64 (0 + delivered)) as V.
    { etransitivity; [exact C|]. etransitivity; [exact F|].
      apply W; [repeat split; reflexivity|reflexivity]. }
    rewrite Z.add_0_l in V.
    destruct (closeResult input); cbn [vars written logError returns];
      exact V. }
  split; [exact G|].
  intros Hsmall. rewrite G. apply wrap64_small. subst delivered. lia.
Qed.

Lemma processLinks_counts_the_output_witness :
  written (vars (processLinks storedGzip Drains 0 (plainInput installLine)
                   "" "px.example" (authConfig false "" false)))
  = wrap64 67.
Proof.
  exact (proj1 (processLinks_counts_the_output storedGzip 0
                  (plainInput installLine) "" "px.example"
                  (authConfig false "" false) eq_refl)).
Defined.

(** *** What the replacement leaves alone *)

Lemma HasPrefix_take (n : nat) (s p : string) :
  strings.HasPrefix (regexp.take n s) p = true -> strings.HasPrefix s p = true.
Proof.
  revert n s; induction p as [|c p IH]; intros n s H; [reflexivity|].
  destruct n as [|n], s as [|d s]; cbn [regexp.take strings.HasPrefix] in H;
    try discriminate H.
  cbn [strings.HasPrefix]. apply andb_prop in H as [-> H].
  cbn [andb]. now apply (IH n).
Qed.

Lemma replaceFrom_without_https
      (host : string) (cfg : Config) (src : string) (inside : nat) :
  strings.Contains src "https://" = false ->
  regexp.replaceFrom regexp.urlPattern inside src
    (fun originalURL => modifyURL originalURL host cfg)
  = strings.drop inside src.
Proof.
  revert inside; induction src as [|c rest IH]; intros inside H.
  - now destruct inside.
  - cbn [strings.Contains] in H. apply orb_false_elim in H as [Hp Hr].
    cbn [regexp.replaceFrom].
    destruct inside as [|k]; [|cbn [strings.drop]; now apply IH].
    cbn [strings.drop].
    destruct (regexp.urlPattern (String c rest)) as [[|k]|].
    + now rewrite (IH 0 Hr).
    + rewrite (IH k Hr).
      rewrite modifyURL_keeps_non_https.
      * apply (take_drop (S k) (String c rest)).
      * destruct (strings.HasPrefix (regexp.take (S k) (String c rest))
                    "https://") eqn:E; [|reflexivity].
        apply HasPrefix_take in E. congruence.
    + now rewrite (IH 0 Hr).
Qed.

(** X24.  A line in which [https://] does not occur is written as it
    is, whatever else it holds (links with [http://] included). *)
Theorem rewriteLine_without_https (host : string) (cfg : Config)
        (line : string) :
  strings.Contains line "https://" = false ->
  rewriteLine host cfg line = line.
Proof.
  intros H. unfold rewriteLine, regexp.ReplaceAllStringFunc.
  now rewrite replaceFrom_without_https.
Qed.

Lemma rewriteLine_without_https_witness :
  rewriteLine "px.example" (authConfig false "" false)
    "curl http://github.com/acme/widget/raw/main/a.sh | sh"
  = "curl http://github.com/acme/widget/raw/main/a.sh | sh".
Proof.
  exact (rewriteLine_without_https "px.example" (authConfig false "" false)
           "curl http://github.com/acme/widget/raw/main/a.sh | sh" eq_refl).
Defined.

(** *** The newlines *)

Lemma count_app (c : ascii) (a b : string) :
  count c (a ++ b) = count c a + count c b.
Proof.
  induction a as [|d a IH]; cbn [append count]; [reflexivity|].
  rewrite IH. lia.
Qed.

Lemma count_take_drop (c : ascii) (n : nat) (s : string) :
  count c (regexp.take n s) + count c (strings.drop n s) = count c s.
Proof. now rewrite <- count_app, take_drop. Qed.

Lemma take_run_no_newline (s : string) :
  count newline (regexp.take (regexp.run s) s) = 0.
Proof.
  induction s as [|c s IH]; [reflexivity|].
  cbn [regexp.run]. destruct (regexp.urlByte c) eqn:U; [|reflexivity].
  cbn [regexp.take count]. rewrite IH.
  destruct (Ascii.eqb c newline) eqn:E; [|reflexivity].
  apply Ascii.eqb_eq in E. subst c. discriminate U.
Qed.

Lemma take_app_length (p s : string) (n : nat) :
  regexp.take (String.length p + n) (p ++ s) = p ++ regexp.take n s.
Proof.
  induction p as [|c p IH]; cbn [String.length append Nat.add regexp.take];
    [reflexivity|]. now rewrite IH.
Qed.

Lemma matchScheme_no_newline (scheme s : string) (n : nat) :
  count newline scheme = 0 ->
  regexp.matchScheme scheme s = Some n ->
  count newline (regexp.take n s) = 0.
Proof.
  intros Hs. unfold regexp.matchScheme.
  destruct (strings.HasPrefix s scheme) eqn:P; [|discriminate].
  apply HasPrefix_inv in P as [rest ->]. rewrite drop_app.
  destruct (regexp.run rest) as [|k] eqn:R; [discriminate|].
  intros [= <-]. rewrite take_app_length, count_app, Hs, <- R.
  apply take_run_no_newline.
Qed.

Lemma urlPattern_no_newline (s : string) (n : nat) :
  regexp.urlPattern s = Some n -> count newline (regexp.take n s) = 0.
Proof.
  unfold regexp.urlPattern.
  destruct (regexp.matchScheme "https://" s) as [m|] eqn:M.
  - intros [= <-]. now apply (matchScheme_no_newline "https://").
  - now apply (matchScheme_no_newline "http://").
Qed.

Lemma count_drop_le (c : ascii) (n : nat) (s : string) :
  count c (strings.drop n s) <= count c s.
Proof. pose proof (count_take_drop c n s). lia. Qed.

Lemma modifyURL_no_newline (url host : string) (cfg : Config) :
  count newline host = 0 -> count newline url = 0 ->
  count newline (modifyURL url host cfg) = 0.
Proof.
  intros Hh Hu. rewrite modifyURL_is_rewrite_aux. unfold rewrite.
  destruct (isEligibleForRewrite url _); [|assumption].
  rewrite !count_app, Hh.
  assert (count newline (stripScheme url) = 0) as ->.
  { unfold stripScheme.
    destruct (strings.HasPrefix url "https://");
      [|destruct (strings.HasPrefix url "http://")];
      try assumption;
      match goal with
      | |- count _ (strings.drop ?n _) = 0 =>
          pose proof (count_drop_le newline n url); lia
      end. }
  reflexivity.
Qed.

Lemma replaceFrom_newlines
      (host : string) (cfg : Config) (src : string) (inside : nat) :
  count newline host = 0 ->
  count newline
    (regexp.replaceFrom regexp.urlPattern inside src
       (fun originalURL => modifyURL originalURL host cfg))
  = count newline (strings.drop inside src).
Proof.
  intros Hh. revert inside; induction src as [|c rest IH]; intros inside.
  - now destruct inside.
  - cbn [regexp.replaceFrom].
    destruct inside as [|k]; [|cbn [strings.drop]; apply IH].
    cbn [strings.drop].
    destruct (regexp.urlPattern (String c rest)) as [[|k]|] eqn:M.
    + cbn [count]. now rewrite (IH 0).
    + pose proof (urlPattern_no_newline _ _ M) as T.
      rewrite count_app, (IH k), (modifyURL_no_newline _ _ _ Hh T).
      pose proof (count_take_drop newline (S k) (String c rest)) as TD.
      rewrite T in TD. cbn [strings.drop] in TD. exact TD.
    + cbn [count]. now rewrite (IH 0).
Qed.

Lemma rewriteLine_newlines (host : string) (cfg : Config) (line : string) :
  count newline host = 0 ->
  count newline (rewriteLine host cfg line) = count newline line.
Proof.
  intros Hh. unfold rewriteLine, regexp.ReplaceAllStringFunc.
  now rewrite replaceFrom_newlines.
Qed.

Lemma rewritten_newlines (host : string) (cfg : Config) (text line : string) :
  count newline host = 0 ->
  count newline (rewritten host cfg line text)
  = (if (0 <? count newline text)%nat then count newline line else 0)
    + count newline text.
Proof.
  intros Hh. revert line; induction text as [|c text IH]; intros line.
  - reflexivity.
  - destruct (Ascii.eqb c newline) eqn:E.
    + apply Ascii.eqb_eq in E. subst c.
      rewrite rewritten_newline, count_app, rewriteLine_newlines by assumption.
      rewrite (IH ""), count_app. cbn [count]. rewrite Ascii.eqb_refl.
      replace (0 <? 1 + count newline text)%nat with true
        by (symmetry; apply Nat.ltb_lt; lia).
      destruct (0 <? count newline text)%nat; lia.
    + rewrite (rewritten_other _ _ _ _ _ E), IH, count_app.
      cbn [count]. rewrite E. cbn [Nat.add]. rewrite Nat.add_0_r.
      reflexivity.
Qed.

(** X25.  The line structure is kept: without compression, with a host
    that holds no newline and a consumer that drains the output, the
    output has exactly as many newlines as the input.  Rewriting a link
    neither adds nor removes one. *)
Theorem processLinks_keeps_newlines
  (gz : GzipModel) (started : nat) (input : ReadCloser)
  (compress host : string) (cfg : Config) :
  String.eqb compress "gzip" = false ->
  count newline host = 0 ->
  count newline
    (fst (drain (readerOut
                   (processLinks gz Drains started input compress host cfg))))
  = count newline (bytes (stream input)).
Proof.
  intros Hc Hh.
  rewrite (processLinks_identity_output gz started input compress host cfg Hc).
  cbn [fst]. rewrite rewritten_newlines by assumption.
  destruct (0 <? count newline (bytes (stream input)))%nat; reflexivity.
Qed.

Lemma processLinks_keeps_newlines_witness :
  count newline
    (fst (drain (readerOut
                   (processLinks storedGzip Drains 0
                      (plainInput (installLine ++ installLine ++ "tail"))
                      "" "px.example" (authConfig false "" false)))))
  = 2.
Proof.
  exact (processLinks_keeps_newlines storedGzip 0
           (plainInput (installLine ++ installLine ++ "tail"))
           "" "px.example" (authConfig false "" false) eq_refl eq_refl).
Defined.


